(** * Merinfo MCP server

    A shallow embedding of the cache store ([src/cache/database.ts]), the
    key validators ([src/utils/validators.ts], [utils/parsers.ts]), the
    backoff and retry wrapper ([utils/rate-limiter.ts]), the browser pool
    ([scraper/browser.ts]), the scraper's control flow ([scraper/merinfo.ts])
    and the tools built on them ([src/server/tools.ts]).

    Conventions.
    - A JavaScript string is a [string]; an optional field ([x?: T], a
      nullable column) is an [option]; [undefined] and [null] are both [None].
    - A timestamp (an ISO-8601 string in the source) is the number of
      milliseconds it denotes, a [Z]; [Date.now()] and SQLite's ['now'] are
      an explicit argument [now].
    - Numbers that the source computes in floating point (cache age in days,
      backoff delays) are rationals [Q].
    - A function that can throw returns a [Completion]; a function with
      effects takes the state it acts on and returns the new one. *)

From Stdlib Require Import ZArith QArith Qminmax Qround Lia Lqa String Ascii List.
From stdpp Require Import gmap strings list.

(* ================================================================== *)
(** * JavaScript values *)
(* ================================================================== *)

(** An [Error] object: its [name], its [message], and the [retryable]
    property that only [ScraperError] carries. *)
Record JsError := mkError {
  err_name : string;
  err_message : string;
  err_retryable : option bool
}.

(** How a call ends: with a value, or with a thrown error. *)
Inductive Completion (A : Type) : Type :=
| Return (a : A)
| Throw (e : JsError).
Arguments Return {A} a.
Arguments Throw {A} e.

(** [new Error(message)] *)
Definition Error (message : string) : JsError :=
  mkError "Error" message None.

(** [new NoSuchCompanyError(org_number)] (types.ts) *)
Definition NoSuchCompanyError (org_number : string) : JsError :=
  mkError "NoSuchCompanyError" ("Company " +:+ org_number +:+ " not found") None.

(** [new ScraperError(message, retryable = true)] (types.ts) *)
Definition ScraperError (message : string) (retryable : bool) : JsError :=
  mkError "ScraperError" message (Some retryable).

(** Truthiness of a string and of a number. *)
Definition truthy_str (s : string) : bool := negb (String.eqb s "").
Definition truthy_num (z : Z) : bool := negb (z =? 0)%Z.

(** Truthiness of a number that may be [null] or [undefined]. *)
Definition truthy_opt_num (x : option Z) : bool :=
  match x with
  | Some z => truthy_num z
  | None => false
  end.

(** [x || null] on an optional string and on an optional number. *)
Definition or_null_str (x : option string) : option string :=
  match x with
  | Some s => if truthy_str s then Some s else None
  | None => None
  end.

Definition or_null_num (x : option Z) : option Z :=
  match x with
  | Some z => if truthy_num z then Some z else None
  | None => None
  end.

(** [x || d] on an optional string. *)
Definition or_default_str (x : option string) (d : string) : string :=
  match x with
  | Some s => if truthy_str s then s else d
  | None => d
  end.

(* ================================================================== *)
(** * Organisation numbers (validators.ts, parsers.ts) *)
(* ================================================================== *)

Module Validators.

(** [\d] and [[0-9]]: the ten ASCII digits. *)
Definition is_digit (c : ascii) : bool :=
  let n := nat_of_ascii c in (48 <=? n)%nat && (n <=? 57)%nat.

(** [val.replace(/[^0-9]/g, '')] *)
Fixpoint replace_non_digits (val : string) : string :=
  match val with
  | EmptyString => EmptyString
  | String c rest =>
      if is_digit c then String c (replace_non_digits rest)
      else replace_non_digits rest
  end.

(** [s.slice(0, n)] and [s.slice(n)] *)
Fixpoint slice_to (n : nat) (s : string) : string :=
  match n, s with
  | O, _ => EmptyString
  | S _, EmptyString => EmptyString
  | S n', String c rest => String c (slice_to n' rest)
  end.

Fixpoint slice_from (n : nat) (s : string) : string :=
  match n, s with
  | O, _ => s
  | S _, EmptyString => EmptyString
  | S n', String _ rest => slice_from n' rest
  end.

(** The template [`${cleaned.slice(0, 6)}-${cleaned.slice(6)}`]. *)
Definition hyphenate (cleaned : string) : string :=
  slice_to 6 cleaned +:+ "-" +:+ slice_from 6 cleaned.

(** The regular expressions the schema needs: [\d], a literal character,
    [r?], [r1 r2] and [r{n}]. *)
Inductive regex :=
| Digit
| Lit (c : ascii)
| Opt (r : regex)
| Seq (r1 r2 : regex)
| Rep (n : nat) (r : regex).

(** What can be left of [s] after [r] has matched at its head, in the
    order a backtracking matcher tries (the greedy choice first). *)
Fixpoint rests (r : regex) (s : string) {struct r} : list string :=
  match r with
  | Digit =>
      match s with
      | String c rest => if is_digit c then [rest] else []
      | EmptyString => []
      end
  | Lit c =>
      match s with
      | String c' rest => if Ascii.eqb c' c then [rest] else []
      | EmptyString => []
      end
  | Opt r => rests r s ++ [s]
  | Seq r1 r2 => flat_map (rests r2) (rests r1 s)
  | Rep n r =>
      (fix rep (n : nat) (s : string) : list string :=
         match n with
         | O => [s]
         | S n' => flat_map (rep n') (rests r s)
         end) n s
  end.

(** [/^r$/.test(val)]: some way of matching [r] leaves nothing (with no
    flag, [$] is the end of the input). *)
Definition regex_test (r : regex) (val : string) : bool :=
  existsb (String.eqb "") (rests r val).

(** [/^\d{6}-?\d{4}$/] *)
Definition org_regex : regex :=
  Seq (Rep 6 Digit) (Seq (Opt (Lit "-")) (Rep 4 Digit)).

(** What a failed [parse] throws. *)
Definition ZodError (message : string) : JsError :=
  mkError "ZodError" message None.

(** [OrgNumberSchema.parse(val)]: the regex, then the transform. *)
Definition OrgNumberSchema (val : string) : Completion string :=
  if regex_test org_regex val then
    let cleaned := replace_non_digits val in
    Return (hyphenate cleaned)
  else
    Throw (ZodError
      "Invalid Swedish organization number format (expected: XXXXXX-XXXX)").

(** [normalizeOrgNumber(org_number)] (parsers.ts) *)
Definition normalizeOrgNumber (org_number : string) : Completion string :=
  let cleaned := replace_non_digits org_number in
  if negb (String.length cleaned =? 10)%nat then
    Throw (Error ("Invalid organization number: " +:+ org_number))
  else
    Return (hyphenate cleaned).

(** The two groups of [/(\d{6})-?(\d{4})/] when it matches at the head
    of [s]: the first way of matching that the backtracking finds. *)
Definition org_groups_at (s : string) : option (string * string) :=
  match rests (Rep 6 Digit) s with
  | [] => None
  | after :: _ =>
      match
        flat_map (fun h => match rests (Rep 4 Digit) h with
                           | [] => []
                           | _ :: _ => [slice_to 4 h]
                           end)
                 (rests (Opt (Lit "-")) after)
      with
      | [] => None
      | group2 :: _ => Some (slice_to 6 s, group2)
      end
  end.

(** [text.match(/(\d{6})-?(\d{4})/)]: the match at the leftmost position
    that has one. *)
Fixpoint org_match (text : string) : option (string * string) :=
  match org_groups_at text with
  | Some groups => Some groups
  | None =>
      match text with
      | String _ rest => org_match rest
      | EmptyString => None
      end
  end.

(** [extractOrgNumber(text)] (parsers.ts); [None] as input is [null] or
    [undefined], as output [null]. *)
Definition extractOrgNumber (text : option string) : option string :=
  match text with
  | None => None
  | Some text =>
      if negb (truthy_str text) then None
      else
        match org_match text with
        | None => None
        | Some (group1, group2) => Some (group1 +:+ "-" +:+ group2)
        end
  end.

(** A string of digits only. *)
Fixpoint all_digits (s : string) : bool :=
  match s with
  | EmptyString => true
  | String c rest => is_digit c && all_digits rest
  end.

End Validators.

(* ================================================================== *)
(** * Backoff (rate-limiter.ts, [BackoffStrategy]) *)
(* ================================================================== *)

Module Backoff.

Local Open Scope Q_scope.

Record BackoffStrategy := {
  initialDelayMs : Q;
  maxDelayMs : Q;
  multiplier : Q;
  jitter : bool
}.

(** [new BackoffStrategy()] *)
Definition default_strategy : BackoffStrategy :=
  {| initialDelayMs := 2000; maxDelayMs := 30000; multiplier := 2;
     jitter := true |}.

(** The delay before jitter:
    [Math.min(initialDelayMs * Math.pow(multiplier, attempt - 1), maxDelayMs)]. *)
Definition baseDelay (b : BackoffStrategy) (attempt : Z) : Q :=
  Qmin (initialDelayMs b * Qpower (multiplier b) (attempt - 1)) (maxDelayMs b).

(** [getDelay(attempt)], with [random] the value [Math.random()] returns. *)
Definition getDelay (b : BackoffStrategy) (attempt : Z) (random : Q) : Q :=
  let baseDelay := baseDelay b attempt in
  if negb (jitter b) then baseDelay
  else
    let jitterAmount := baseDelay * (25 # 100) in
    let jitter := random * jitterAmount * 2 - jitterAmount in
    Qmax 0 (baseDelay + jitter).

End Backoff.

(* ================================================================== *)
(** * The token bucket (rate-limiter.ts, [RateLimiter]) *)
(* ================================================================== *)

Module RateLimiter.

Local Open Scope Q_scope.

Record TokenBucket := {
  tokens : Q;
  lastRefill : Z;
  maxTokens : Q;
  refillRate : Q
}.

(** [new RateLimiter(maxRequests, windowMs)], with its [Map] of buckets. *)
Record Limiter := {
  maxRequests : Q;
  windowMs : Q;
  buckets : gmap string TokenBucket
}.

Definition new_limiter (maxRequests windowMs : Q) : Limiter :=
  {| maxRequests := maxRequests; windowMs := windowMs; buckets := ∅ |}.

(** [a >= b] on numbers. *)
Definition Qgeb (a b : Q) : bool := Qle_bool b a.

(** [getWaitTime(bucket)], in milliseconds.  The division is by a
    positive rate wherever the limiter was made with a positive number
    of requests and a positive window. *)
Definition getWaitTime (bucket : TokenBucket) : Z :=
  if Qgeb (tokens bucket) 1 then 0%Z
  else
    let tokensNeeded := 1 - tokens bucket in
    let msNeeded := tokensNeeded / refillRate bucket in
    Qceiling msNeeded.

(** [getBucket(identifier)]: the bucket of the identifier, made full and
    stored when there is none. *)
Definition getBucket (identifier : string) (now : Z) (l : Limiter)
  : TokenBucket * Limiter :=
  match buckets l !! identifier with
  | Some bucket => (bucket, l)
  | None =>
      let bucket :=
        {| tokens := maxRequests l; lastRefill := now;
           maxTokens := maxRequests l;
           refillRate := maxRequests l / windowMs l |} in
      (bucket,
       {| maxRequests := maxRequests l; windowMs := windowMs l;
          buckets := <[identifier := bucket]> (buckets l) |})
  end.

(** [refillBucket(bucket)] *)
Definition refillBucket (bucket : TokenBucket) (now : Z) : TokenBucket :=
  let elapsed := inject_Z (now - lastRefill bucket) in
  let tokensToAdd := elapsed * refillRate bucket in
  {| tokens := Qmin (maxTokens bucket) (tokens bucket + tokensToAdd);
     lastRefill := now;
     maxTokens := maxTokens bucket;
     refillRate := refillRate bucket |}.

(** [bucket.tokens -= 1] *)
Definition consume (bucket : TokenBucket) : TokenBucket :=
  {| tokens := tokens bucket - 1; lastRefill := lastRefill bucket;
     maxTokens := maxTokens bucket; refillRate := refillRate bucket |}.

(** The bucket object is shared with the map: what is done to it shows
    under its identifier. *)
Definition store (identifier : string) (bucket : TokenBucket) (l : Limiter)
  : Limiter :=
  {| maxRequests := maxRequests l; windowMs := windowMs l;
     buckets := <[identifier := bucket]> (buckets l) |}.

(** [checkLimit(identifier)] *)
Definition checkLimit (identifier : string) (now : Z) (l : Limiter)
  : bool * Limiter :=
  let '(bucket, l) := getBucket identifier now l in
  let bucket := refillBucket bucket now in
  if Qgeb (tokens bucket) 1 then (true, store identifier (consume bucket) l)
  else (false, store identifier bucket l).


(** [getStatus(identifier)]: [requests_remaining] and the time of
    [window_reset_at]. *)
Definition getStatus (identifier : string) (now : Z) (l : Limiter)
  : (Z * Z) * Limiter :=
  let '(bucket, l) := getBucket identifier now l in
  let bucket := refillBucket bucket now in
  let resetMs := getWaitTime bucket in
  ((Qfloor (tokens bucket), (now + resetMs)%Z), store identifier bucket l).

(** [reset()] *)
Definition reset (l : Limiter) : Limiter :=
  {| maxRequests := maxRequests l; windowMs := windowMs l; buckets := ∅ |}.

End RateLimiter.

(* ================================================================== *)
(** * Records (types.ts) *)
(* ================================================================== *)

Record ContactInfo := {
  phone : option string;
  address : option string;
  postal_code : option string;
  city : option string;
  municipality : option string;
  county : option string
}.

Record TaxInfo := {
  f_skatt : bool;
  vat_registered : bool;
  employer_registered : bool
}.

Record FinancialData := {
  period : option string;
  revenue : option Z;
  profit_after_financial : option Z;
  net_profit : option Z;
  total_assets : option Z;
  currency : string
}.

Record IndustryInfo := {
  sni_code : option string;
  sni_description : option string;
  categories : option (list string);
  activity_description : option string
}.

Record CompanyData := {
  org_number : string;
  name : string;
  legal_form : option string;
  status : option string;
  registration_date : option string;
  contact : ContactInfo;
  tax_info : TaxInfo;
  financials : option FinancialData;
  industry : IndustryInfo;
  bankgiro_number : option string;
  has_remarks : bool;
  remarks : option string;
  source_url : string;
  scraped_at : Z;
  updated_at : option Z
}.

Record PersonAddress := {
  street : option string;
  apartment : option string;
  p_postal_code : option string;
  p_city : option string
}.

Record PersonDetails := {
  p_id : option nat;
  p_org_number : string;
  p_name : string;
  p_role : string;
  personal_number : option string;
  age : option Z;
  p_phone : option string;
  p_address : PersonAddress;
  profile_url : option string;
  p_scraped_at : option Z
}.

(** The part of [DEFAULT_CONFIG] that the modelled code reads. *)
Record MCPConfig := {
  cache_stale_days : Z;
  enable_person_details : bool
}.

(** [DEFAULT_CONFIG] with no environment variable set. *)
Definition DEFAULT_CONFIG : MCPConfig :=
  {| cache_stale_days := 7; enable_person_details := true |}.

(* ================================================================== *)
(** * The cache store (database.ts, schema.ts) *)
(* ================================================================== *)

Module Database.

(** A row of table [companies].  The [categories] column holds the JSON
    text of an array of strings; [JSON.stringify] and [JSON.parse] are
    inverse on such arrays, so the column is modelled by the array. *)
Record CompanyRow := {
  r_org_number : string;
  r_name : string;
  r_legal_form : option string;
  r_status : option string;
  r_registration_date : option string;
  r_phone : option string;
  r_address : option string;
  r_postal_code : option string;
  r_city : option string;
  r_municipality : option string;
  r_county : option string;
  r_f_skatt : Z;
  r_vat_registered : Z;
  r_employer_registered : Z;
  r_financial_period : option string;
  r_revenue : option Z;
  r_profit_after_financial : option Z;
  r_net_profit : option Z;
  r_total_assets : option Z;
  r_currency : option string;
  r_sni_code : option string;
  r_sni_description : option string;
  r_categories : option (list string);
  r_activity_description : option string;
  r_bankgiro_number : option string;
  r_has_remarks : Z;
  r_remarks : option string;
  r_source_url : string;
  r_scraped_at : Z;
  r_updated_at : Z
}.

(** A row of table [people]. *)
Record PersonRow := {
  pr_id : nat;
  pr_org_number : string;
  pr_name : string;
  pr_role : string;
  pr_personal_number : option string;
  pr_age : option Z;
  pr_phone : option string;
  pr_street : option string;
  pr_apartment : option string;
  pr_postal_code : option string;
  pr_city : option string;
  pr_profile_url : option string;
  pr_scraped_at : option Z
}.

(** The database: [companies] keyed by its primary key, [people] in
    insertion order, and the next AUTOINCREMENT id. *)
Record Db := {
  companies : gmap string CompanyRow;
  people : list PersonRow;
  next_person_id : nat
}.

Definition empty_db : Db :=
  {| companies := ∅; people := []; next_person_id := 1 |}.

(** [b ? 1 : 0] and [Boolean(n)] *)
Definition bool_to_int (b : bool) : Z := if b then 1%Z else 0%Z.
Definition Boolean (n : Z) : bool := truthy_num n.

(** [company.financials?.f], for a field [f] of the snapshot. *)
Definition fin {A} (f : FinancialData -> option A) (company : CompanyData)
  : option A :=
  match financials company with
  | Some d => f d
  | None => None
  end.

(** The values [saveCompany] binds to the statement, in column order:
    the row the INSERT proposes ([excluded] in the ON CONFLICT clause). *)
Definition bound_row (company : CompanyData) (now : Z) : CompanyRow :=
  {| r_org_number := org_number company;
     r_name := name company;
     r_legal_form := or_null_str (legal_form company);
     r_status := or_null_str (status company);
     r_registration_date := or_null_str (registration_date company);
     r_phone := or_null_str (phone (contact company));
     r_address := or_null_str (address (contact company));
     r_postal_code := or_null_str (postal_code (contact company));
     r_city := or_null_str (city (contact company));
     r_municipality := or_null_str (municipality (contact company));
     r_county := or_null_str (county (contact company));
     r_f_skatt := bool_to_int (f_skatt (tax_info company));
     r_vat_registered := bool_to_int (vat_registered (tax_info company));
     r_employer_registered := bool_to_int (employer_registered (tax_info company));
     r_financial_period := or_null_str (fin period company);
     r_revenue := or_null_num (fin revenue company);
     r_profit_after_financial := or_null_num (fin profit_after_financial company);
     r_net_profit := or_null_num (fin net_profit company);
     r_total_assets := or_null_num (fin total_assets company);
     r_currency :=
       Some (or_default_str (fin (fun d => Some (currency d)) company) "SEK");
     r_sni_code := or_null_str (sni_code (industry company));
     r_sni_description := or_null_str (sni_description (industry company));
     r_categories := Some (default [] (categories (industry company)));
     r_activity_description := or_null_str (activity_description (industry company));
     r_bankgiro_number := or_null_str (bankgiro_number company);
     r_has_remarks := bool_to_int (has_remarks company);
     r_remarks := or_null_str (remarks company);
     r_source_url := source_url company;
     r_scraped_at := scraped_at company;
     r_updated_at := now |}.

(** [ON CONFLICT(org_number) DO UPDATE SET ...]: the row that replaces
    [old] when [excluded] meets it.  Each column of the SET list takes the
    proposed value; [org_number] and [scraped_at] are not in the list and
    keep the stored one. *)
Definition do_update (old excluded : CompanyRow) : CompanyRow :=
  {| r_org_number := r_org_number old;
     r_name := r_name excluded;
     r_legal_form := r_legal_form excluded;
     r_status := r_status excluded;
     r_registration_date := r_registration_date excluded;
     r_phone := r_phone excluded;
     r_address := r_address excluded;
     r_postal_code := r_postal_code excluded;
     r_city := r_city excluded;
     r_municipality := r_municipality excluded;
     r_county := r_county excluded;
     r_f_skatt := r_f_skatt excluded;
     r_vat_registered := r_vat_registered excluded;
     r_employer_registered := r_employer_registered excluded;
     r_financial_period := r_financial_period excluded;
     r_revenue := r_revenue excluded;
     r_profit_after_financial := r_profit_after_financial excluded;
     r_net_profit := r_net_profit excluded;
     r_total_assets := r_total_assets excluded;
     r_currency := r_currency excluded;
     r_sni_code := r_sni_code excluded;
     r_sni_description := r_sni_description excluded;
     r_categories := r_categories excluded;
     r_activity_description := r_activity_description excluded;
     r_bankgiro_number := r_bankgiro_number excluded;
     r_has_remarks := r_has_remarks excluded;
     r_remarks := r_remarks excluded;
     r_source_url := r_source_url excluded;
     r_scraped_at := r_scraped_at old;
     r_updated_at := r_updated_at excluded |}.

(** [saveCompany(company)]: insert, or update on a key that is there. *)
Definition saveCompany (company : CompanyData) (now : Z) (db : Db) : Db :=
  let excluded := bound_row company now in
  let row :=
    match companies db !! r_org_number excluded with
    | Some old => do_update old excluded
    | None => excluded
    end in
  {| companies := <[r_org_number excluded := row]> (companies db);
     people := people db;
     next_person_id := next_person_id db |}.

(** [rowToCompany(row)] *)
Definition rowToCompany (row : CompanyRow) : CompanyData :=
  {| org_number := r_org_number row;
     name := r_name row;
     legal_form := r_legal_form row;
     status := r_status row;
     registration_date := r_registration_date row;
     contact :=
       {| phone := r_phone row;
          address := r_address row;
          postal_code := r_postal_code row;
          city := r_city row;
          municipality := r_municipality row;
          county := r_county row |};
     tax_info :=
       {| f_skatt := Boolean (r_f_skatt row);
          vat_registered := Boolean (r_vat_registered row);
          employer_registered := Boolean (r_employer_registered row) |};
     financials :=
       if truthy_opt_num (r_revenue row) then
         Some {| period := r_financial_period row;
                 revenue := r_revenue row;
                 profit_after_financial := r_profit_after_financial row;
                 net_profit := r_net_profit row;
                 total_assets := r_total_assets row;
                 currency := or_default_str (r_currency row) "SEK" |}
       else None;
     industry :=
       {| sni_code := r_sni_code row;
          sni_description := r_sni_description row;
          categories := Some (default [] (r_categories row));
          activity_description := r_activity_description row |};
     bankgiro_number := r_bankgiro_number row;
     has_remarks := Boolean (r_has_remarks row);
     remarks := r_remarks row;
     source_url := r_source_url row;
     scraped_at := r_scraped_at row;
     updated_at := Some (r_updated_at row) |}.

(** [getCompany(org_number)] *)
Definition getCompany (org_number : string) (db : Db) : option CompanyData :=
  match companies db !! org_number with
  | None => None
  | Some row => Some (rowToCompany row)
  end.

(** Milliseconds in a day, and [julianday('now') - julianday(scraped_at)]. *)
Definition ms_per_day : positive := 86400000.

Definition age_days (now scraped_at : Z) : Q := (now - scraped_at) # ms_per_day.

(** [a > b] on numbers. *)
Definition Qgtb (a b : Q) : bool := negb (Qle_bool a b).

(** [isCacheStale(org_number, stale_days)] *)
Definition isCacheStale (org_number : string) (stale_days : Z) (now : Z)
    (db : Db) : bool :=
  match companies db !! org_number with
  | None => true
  | Some row => Qgtb (age_days now (r_scraped_at row)) (inject_Z stale_days)
  end.

(** [rowToPerson(row)] *)
Definition rowToPerson (row : PersonRow) : PersonDetails :=
  {| p_id := Some (pr_id row);
     p_org_number := pr_org_number row;
     p_name := pr_name row;
     p_role := pr_role row;
     personal_number := pr_personal_number row;
     age := pr_age row;
     p_phone := pr_phone row;
     p_address :=
       {| street := pr_street row;
          apartment := pr_apartment row;
          p_postal_code := pr_postal_code row;
          p_city := pr_city row |};
     profile_url := pr_profile_url row;
     p_scraped_at := pr_scraped_at row |}.

(** [getBoardMembers(org_number)] *)
Definition getBoardMembers (org_number : string) (db : Db)
  : list PersonDetails :=
  map rowToPerson
    (filter (fun row => pr_org_number row = org_number) (people db)).

(** The row one [stmt.run(...)] of [saveBoardMembers] inserts. *)
Definition person_row (id : nat) (member : PersonDetails) (now : Z)
  : PersonRow :=
  {| pr_id := id;
     pr_org_number := p_org_number member;
     pr_name := p_name member;
     pr_role := p_role member;
     pr_personal_number := or_null_str (personal_number member);
     pr_age := or_null_num (age member);
     pr_phone := or_null_str (p_phone member);
     pr_street := or_null_str (street (p_address member));
     pr_apartment := or_null_str (apartment (p_address member));
     pr_postal_code := or_null_str (p_postal_code (p_address member));
     pr_city := or_null_str (p_city (p_address member));
     pr_profile_url := or_null_str (profile_url member);
     pr_scraped_at := Some (default now (p_scraped_at member)) |}.

(** The rows the insert loop adds, with consecutive ids from [id]. *)
Fixpoint insert_rows (id : nat) (members : list PersonDetails) (now : Z)
  : list PersonRow :=
  match members with
  | [] => []
  | member :: rest => person_row id member now :: insert_rows (S id) rest now
  end.

(** [PRAGMA foreign_keys = ON]: a person row needs its company row. *)
Definition foreign_key_ok (db : Db) (member : PersonDetails) : bool :=
  bool_decide (is_Some (companies db !! p_org_number member)).

Definition SqliteError (message : string) : JsError :=
  mkError "SqliteError" message None.

(** [saveBoardMembers(org_number, members)]: the DELETE, the early return
    on an empty list, then the inserts in one transaction, which is rolled
    back as a whole when a row breaks the foreign key. *)
Definition saveBoardMembers (org_number : string) (members : list PersonDetails)
    (now : Z) (db : Db) : Completion unit * Db :=
  let deleted :=
    {| companies := companies db;
       people := filter (fun row => pr_org_number row ≠ org_number) (people db);
       next_person_id := next_person_id db |} in
  if (length members =? 0)%nat then (Return tt, deleted)
  else if forallb (foreign_key_ok deleted) members then
    (Return tt,
     {| companies := companies deleted;
        people := people deleted ++ insert_rows (next_person_id deleted) members now;
        next_person_id := (next_person_id deleted + length members)%nat |})
  else (Throw (SqliteError "FOREIGN KEY constraint failed"), deleted).

(** The WHERE clause of the first statement of [CLEANUP_SQL]:
    [julianday('now') - julianday(scraped_at) > ?]. *)
Definition expired (older_than_days now : Z) (row : CompanyRow) : bool :=
  Qgtb (age_days now (r_scraped_at row)) (inject_Z older_than_days).

(** Whether the DELETE takes the company row a person row refers to, and
    with it the person row ([ON DELETE CASCADE]). *)
Definition cascaded (older_than_days now : Z) (db : Db) (row : PersonRow)
  : bool :=
  match companies db !! pr_org_number row with
  | Some company => expired older_than_days now company
  | None => false
  end.

(** [clearCache(older_than_days)]: the first statement of [CLEANUP_SQL]
    and nothing else of it.  [result.changes] counts the company rows
    deleted; rows deleted by the cascade are not counted. *)
Definition clearCache (older_than_days now : Z) (db : Db) : nat * Db :=
  let kept :=
    filter (fun entry => expired older_than_days now entry.2 = false)
           (companies db) in
  ((size (companies db) - size kept)%nat,
   {| companies := kept;
      people :=
        filter (fun row => cascaded older_than_days now db row = false)
               (people db);
      next_person_id := next_person_id db |}).

End Database.

(* ================================================================== *)
(** * The browser pool (scraper/browser.ts) *)
(* ================================================================== *)

Module BrowserPool.

(** A [BrowserContext] object, known by its identity.  The pool keeps the
    contexts in an array and their timestamps in a [Map] keyed by the
    object.  [created] and [closed] are not fields of the class: they
    record when [createContext] made each context and on which ones
    [close()] was called, so that properties can speak of them. *)
Record Pool := {
  browser : bool;
  contexts : list nat;
  contextAge : gmap nat Z;
  next_context : nat;
  created : gmap nat Z;
  closed : gset nat
}.

Definition maxContexts : nat := 3.
Definition maxContextAgeMs : Z := 600000.

(** [new BrowserPool()] *)
Definition new_pool : Pool :=
  {| browser := false; contexts := []; contextAge := ∅; next_context := 0;
     created := ∅; closed := ∅ |}.

(** [initialize()], with a browser that launches. *)
Definition initialize (p : Pool) : Pool :=
  if browser p then p
  else
    {| browser := true; contexts := contexts p; contextAge := contextAge p;
       next_context := next_context p; created := created p;
       closed := closed p |}.

(** One round of the second loop of [cleanupOldContexts]:
    [context.close()], the [filter] on the array, the [delete] on the map. *)
Definition remove_context (p : Pool) (context : nat) : Pool :=
  {| browser := browser p;
     contexts := filter (fun c => c ≠ context) (contexts p);
     contextAge := delete context (contextAge p);
     next_context := next_context p;
     created := created p;
     closed := closed p ∪ {[context]} |}.

(** The test of the first loop: [now - age > this.maxContextAgeMs]. *)
Definition too_old (now : Z) (entry : nat * Z) : Prop :=
  (now - entry.2 > maxContextAgeMs)%Z.

Global Instance too_old_dec now entry : Decision (too_old now entry).
Proof. unfold too_old. apply _. Defined.

(** [cleanupOldContexts()] *)
Definition cleanupOldContexts (now : Z) (p : Pool) : Pool :=
  let contextsToRemove :=
    (map_to_list (filter (too_old now) (contextAge p))).*1 in
  foldl remove_context p contextsToRemove.

(** [createContext()]: a context that no one has seen before. *)
Definition createContext (now : Z) (p : Pool) : nat * Pool :=
  (next_context p,
   {| browser := browser p; contexts := contexts p;
      contextAge := contextAge p;
      next_context := S (next_context p);
      created := <[next_context p := now]> (created p);
      closed := closed p |}).

(** [acquireContext()]; [None] is [this.contexts[0]] of an empty array. *)
Definition acquireContext (now : Z) (p : Pool) : option nat * Pool :=
  let p := if browser p then p else initialize p in
  let p := cleanupOldContexts now p in
  if (length (contexts p) <? maxContexts)%nat then
    let '(context, p) := createContext now p in
    (Some context,
     {| browser := browser p;
        contexts := contexts p ++ [context];
        contextAge := <[context := now]> (contextAge p);
        next_context := next_context p;
        created := created p;
        closed := closed p |})
  else
    let oldestContext := head (contexts p) in
    (oldestContext, p).

(** [releaseContext(context)] *)
Definition releaseContext (context : nat) (now : Z) (p : Pool) : Pool :=
  {| browser := browser p; contexts := contexts p;
     contextAge := <[context := now]> (contextAge p);
     next_context := next_context p;
     created := created p;
     closed := closed p |}.

(** [closeAll()]: every context of the array is closed, then the browser. *)
Definition closeAll (p : Pool) : Pool :=
  {| browser := false; contexts := []; contextAge := ∅;
     next_context := next_context p;
     created := created p;
     closed := closed p ∪ list_to_set (contexts p) |}.

(** [restart()]: [closeAll], the cooldown, [initialize]. *)
Definition restart (p : Pool) : Pool := initialize (closeAll p).

(** The pools that calls to the public methods produce, one call after
    the other, from a new pool; what is released is a context that
    [createContext] has made. *)
Inductive reachable : Pool -> Prop :=
| reach_new : reachable new_pool
| reach_initialize p : reachable p -> reachable (initialize p)
| reach_acquire p now : reachable p -> reachable (acquireContext now p).2
| reach_release p context now :
    reachable p -> context < next_context p ->
    reachable (releaseContext context now p)
| reach_restart p : reachable p -> reachable (restart p)
| reach_closeAll p : reachable p -> reachable (closeAll p).



End BrowserPool.

(* ================================================================== *)
(** * The retry wrapper (rate-limiter.ts, [withRetry]) *)
(* ================================================================== *)

Module Retry.

(** What [throw lastError!] throws when the loop never ran. *)
Definition undefined_error : JsError := mkError "undefined" "" None.

Section WithRetry.

Context {S A : Type}.

(** The wrapped operation, the options, and the wait of the backoff
    strategy, each acting on the state [S] of the world around them. *)
Variable operation : S -> Completion A * S.
Variable maxAttempts : nat.
Variable retryableErrors : list string.
Variable onRetry : nat -> JsError -> S -> S.
Variable backoff_wait : nat -> S -> S.

(** [retryableErrors.includes(lastError.name)] *)
Definition isRetryable (error : JsError) : bool :=
  existsb (String.eqb (err_name error)) retryableErrors.

(** The [for] loop from [attempt] on, with [remaining] rounds to go
    ([attempt <= maxAttempts] holds for as long as there are rounds). *)
Fixpoint retry_loop (remaining attempt : nat) (lastError : option JsError)
    (s : S) : Completion A * S :=
  match remaining with
  | O => (Throw (default undefined_error lastError), s)
  | Datatypes.S remaining' =>
      match operation s with
      | (Return value, s) => (Return value, s)
      | (Throw error, s) =>
          let isLastAttempt := (attempt =? maxAttempts)%nat in
          if isLastAttempt || negb (isRetryable error) then (Throw error, s)
          else
            let s := onRetry attempt error s in
            let s := backoff_wait attempt s in
            retry_loop remaining' (Datatypes.S attempt) (Some error) s
      end
  end.

(** [withRetry(operation, options)] *)
Definition withRetry (s : S) : Completion A * S :=
  retry_loop maxAttempts 1 None s.

(** The state in which the next attempt starts after attempt [n] failed:
    the callback has run and the backoff delay has passed. *)
Definition before_retry (n : nat) (error : JsError) (s : S) : S :=
  backoff_wait n (onRetry n error s).

End WithRetry.

End Retry.

(* ================================================================== *)
(** * The scraper (scraper/merinfo.ts) *)
(* ================================================================== *)

Module Scraper.

Import Validators BrowserPool Retry.

(** The link [a[href*="/foretag/"]] of a result card. *)
Record Link := {
  textContent : option string;
  href : option string
}.

(** The result card that carries the organisation number: whether it
    shows the red remark ("anmärka på"), and its company link. *)
Record Card := {
  hasWarning : bool;
  link : option Link
}.

(** What the site shows to one page, from [createPage] to [close]:
    whether the search navigation fails, whether result cards render in
    time, the card of the company, the text of the body, and what the
    extraction of the company page and of the person pages yields (their
    selectors are not modelled). *)
Record Site := {
  search_goto : option JsError;
  results_rendered : bool;
  card : option Card;
  body_text : option string;
  company_page : Completion CompanyData;
  person_pages : list PersonDetails
}.

(** Steps of a fetch, as they are taken. *)
Inductive Event :=
| EvAttempt (page : nat)
| EvSearch
| EvLimitCheck
| EvDetailScrape (url : string)
| EvBoardScrape
| EvRelease (context : nat)
| EvRetry (attempt : nat)
| EvRestart
| EvBackoffWait (attempt : nat).

(** The world a fetch runs in: the global [browserPool], the clock, the
    site as each page created so far and later will see it, the number of
    pages created, and the steps taken, latest first.  The clock is read
    where the source reads [Date.now()]; the waits (random delays,
    backoff, the cooldown of a restart) are steps of the trace and do not
    move it. *)
Record World := {
  pool : Pool;
  clock : Z;
  site : nat -> Site;
  pages : nat;
  trace : list Event
}.

Definition log (e : Event) (w : World) : World :=
  {| pool := pool w; clock := clock w; site := site w; pages := pages w;
     trace := e :: trace w |}.

Definition set_pool (p : Pool) (w : World) : World :=
  {| pool := p; clock := clock w; site := site w; pages := pages w;
     trace := trace w |}.

(** How often the pool was restarted, how many attempts were made, and
    how often a company page was opened. *)
Definition is_restart (e : Event) : bool :=
  match e with EvRestart => true | _ => false end.

Definition is_attempt (e : Event) : bool :=
  match e with EvAttempt _ => true | _ => false end.

Definition is_detail (e : Event) : bool :=
  match e with EvDetailScrape _ => true | _ => false end.

Definition restarts (w : World) : nat :=
  length (List.filter is_restart (trace w)).

Definition attempts (w : World) : nat :=
  length (List.filter is_attempt (trace w)).

Definition detail_scrapes (w : World) : nat :=
  length (List.filter is_detail (trace w)).

Definition BASE_URL : string := "https://www.merinfo.se".

(** [s.includes(needle)] *)
Fixpoint includes (s needle : string) : bool :=
  String.prefix needle s ||
  match s with
  | EmptyString => false
  | String _ rest => includes rest needle
  end.

(** [`${x}`] of a string that may be [null]. *)
Definition template (x : option string) : string := default "null" x.

(** The message of the error a flagged card raises. *)
Definition warning_message (companyName : option string) : string :=
  "Company " +:+ template companyName +:+ " has warning remarks".

(** [searchCompany(page, org_number)].  A missing card and a missing link
    under [$eval] throw inside the [try]; the [catch] turns what is not a
    [ScraperError] into [null]. *)
Definition searchCompany (s : Site) (org_number : string)
  : Completion (option string) :=
  match search_goto s with
  | Some error => Throw error
  | None =>
      if negb (results_rendered s) then Return None
      else
        match card s with
        | None => Return None
        | Some card =>
            if hasWarning card then
              match link card with
              | None => Return None
              | Some a =>
                  Throw (ScraperError (warning_message (textContent a)) false)
              end
            else
              match link card with
              | None => Return None
              | Some a =>
                  match href a with
                  | None => Return None
                  | Some href =>
                      if negb (truthy_str href) then Return None
                      else if String.prefix "http" href then Return (Some href)
                      else Return (Some (BASE_URL +:+ href))
                  end
              end
        end
  end.

Definition limit_text : string := "Oops, din sökgräns är nådd!".

(** [isSearchLimitReached(page)] *)
Definition isSearchLimitReached (s : Site) : bool :=
  match body_text s with
  | Some text => includes text limit_text
  | None => false
  end.

Definition limit_error : JsError :=
  ScraperError "Search limit reached on merinfo.se" true.

(** [scrapeCompanyPage(page, url, org_number)]: the fields the page
    yields, under the key, the URL and the time of this fetch. *)
Definition scrapeCompanyPage (s : Site) (url org_number : string) (now : Z)
  : Completion CompanyData :=
  match company_page s with
  | Throw error => Throw error
  | Return c =>
      Return
        {| org_number := org_number; name := name c;
           legal_form := legal_form c; status := status c;
           registration_date := registration_date c;
           contact := contact c; tax_info := tax_info c;
           financials := financials c; industry := industry c;
           bankgiro_number := None;
           has_remarks := has_remarks c; remarks := remarks c;
           source_url := url; scraped_at := now; updated_at := None |}
  end.

(** [scrapeBoardMembers(page, org_number)]: the people found, under the
    key and the time of this fetch.  It never throws. *)
Definition scrapeBoardMembers (s : Site) (org_number : string) (now : Z)
  : list PersonDetails :=
  map (fun m =>
         {| p_id := None; p_org_number := org_number; p_name := p_name m;
            p_role := p_role m; personal_number := None; age := age m;
            p_phone := p_phone m; p_address := p_address m;
            profile_url := profile_url m; p_scraped_at := Some now |})
      (person_pages s).

Definition TypeError (message : string) : JsError :=
  mkError "TypeError" message None.

(** [doScrape(org_number, include_board)]: one attempt.  The context is
    released on success only; on every path the page is closed. *)
Definition doScrape (cfg : MCPConfig) (org_number : string)
    (include_board : bool) (w : World)
  : Completion (CompanyData * list PersonDetails) * World :=
  let '(context, p) := acquireContext (clock w) (pool w) in
  let w := set_pool p w in
  match context with
  | None => (Throw (TypeError "Cannot read properties of undefined"), w)
  | Some context =>
      let s := site w (pages w) in
      let w :=
        {| pool := pool w; clock := clock w; site := site w;
           pages := Datatypes.S (pages w);
           trace := EvAttempt (pages w) :: trace w |} in
      let w := log EvSearch w in
      match searchCompany s org_number with
      | Throw error => (Throw error, w)
      | Return None => (Throw (NoSuchCompanyError org_number), w)
      | Return (Some companyUrl) =>
          let w := log EvLimitCheck w in
          if isSearchLimitReached s then (Throw limit_error, w)
          else
            let w := log (EvDetailScrape companyUrl) w in
            match scrapeCompanyPage s companyUrl org_number (clock w) with
            | Throw error => (Throw error, w)
            | Return company =>
                let '(board_members, w) :=
                  if include_board && enable_person_details cfg then
                    (scrapeBoardMembers s org_number (clock w), log EvBoardScrape w)
                  else ([], w) in
                let w := set_pool (releaseContext context (clock w) (pool w)) w in
                (Return (company, board_members), log (EvRelease context) w)
            end
      end
  end.

(** The [onRetry] callback of [scrapeCompany].  [withRetry] calls it
    without awaiting it; it is modelled as done before the backoff wait
    begins. *)
Definition onRetry (attempt : nat) (error : JsError) (w : World) : World :=
  let w := log (EvRetry attempt) w in
  if (2 <=? attempt)%nat then log EvRestart (set_pool (restart (pool w)) w)
  else w.

(** [backoff.wait(attempt)]: the delay of [Backoff.getDelay] passes. *)
Definition backoff_wait (attempt : nat) (w : World) : World :=
  log (EvBackoffWait attempt) w.

Definition maxAttempts : nat := 3.
Definition retryableErrors : list string := ["ScraperError"; "TimeoutError"].

(** [scrapeCompany(org_number, include_board)].  The wait for a slot of
    the rate limiter and the logging around the call change nothing that
    is modelled here. *)
Definition scrapeCompany (cfg : MCPConfig) (org_number : string)
    (include_board : bool) (w : World)
  : Completion (CompanyData * list PersonDetails) * World :=
  match normalizeOrgNumber org_number with
  | Throw error => (Throw error, w)
  | Return normalized_org =>
      withRetry (doScrape cfg normalized_org include_board)
        maxAttempts retryableErrors onRetry backoff_wait w
  end.

End Scraper.

(* ================================================================== *)
(** * The tools (server/tools.ts) *)
(* ================================================================== *)

Module Tools.

Import Validators Database Scraper.

(** [this.db] and the world the global scraper acts on. *)
Record State := {
  db : Db;
  world : World
}.

Record SearchCompanyByOrgNumberInput := {
  in_org_number : string;
  force_refresh : bool;
  include_board : bool
}.

Record Response := {
  success : bool;
  cached : bool;
  cache_age_days : option Z;
  company : CompanyData;
  board_members : option (list PersonDetails)
}.

(** The outcome of the cache check of [searchCompanyByOrgNumber]. *)
Inductive Decision :=
| Serve (cached : CompanyData)
| Fetch.

(** The cache check: [cached], [is_stale] and the test
    [cached && !force_refresh && !is_stale]. *)
Definition freshness (cfg : MCPConfig) (org_number : string)
    (force_refresh : bool) (now : Z) (db : Db) : Decision :=
  let cached := getCompany org_number db in
  let is_stale :=
    match cached with
    | Some _ => isCacheStale org_number (cache_stale_days cfg) now db
    | None => true
    end in
  match cached with
  | Some cached =>
      if negb force_refresh && negb is_stale then Serve cached else Fetch
  | None => Fetch
  end.

(** [searchCompanyByOrgNumber(args)] *)
Definition searchCompanyByOrgNumber (cfg : MCPConfig)
    (args : SearchCompanyByOrgNumberInput) (st : State)
  : Completion Response * State :=
  match OrgNumberSchema (in_org_number args) with
  | Throw error => (Throw error, st)
  | Return org_number =>
      let now := clock (world st) in
      match freshness cfg org_number (force_refresh args) now (db st) with
      | Serve cached =>
          (Return
             {| success := true; cached := true;
                cache_age_days := Some ((now - scraped_at cached) / Zpos ms_per_day)%Z;
                company := cached;
                board_members :=
                  if include_board args
                  then Some (getBoardMembers org_number (db st)) else None |},
           st)
      | Fetch =>
          match scrapeCompany cfg org_number (include_board args) (world st) with
          | (Throw error, w) => (Throw error, {| db := db st; world := w |})
          | (Return (company, board_members), w) =>
              let d := saveCompany company now (db st) in
              let response :=
                {| success := true; cached := false; cache_age_days := None;
                   company := company;
                   board_members :=
                     if include_board args then Some board_members else None |} in
              if include_board args && (0 <? length board_members)%nat then
                match saveBoardMembers org_number board_members now d with
                | (Throw error, d) => (Throw error, {| db := d; world := w |})
                | (Return _, d) => (Return response, {| db := d; world := w |})
                end
              else (Return response, {| db := d; world := w |})
          end
      end
  end.

(** [updateCompanyData(args)] *)
Definition updateCompanyData (cfg : MCPConfig) (arg_org_number : string)
    (st : State) : Completion (CompanyData * list PersonDetails) * State :=
  match OrgNumberSchema arg_org_number with
  | Throw error => (Throw error, st)
  | Return org_number =>
      let now := clock (world st) in
      match scrapeCompany cfg org_number true (world st) with
      | (Throw error, w) => (Throw error, {| db := db st; world := w |})
      | (Return (company, board_members), w) =>
          let d := saveCompany company now (db st) in
          match saveBoardMembers org_number board_members now d with
          | (Throw error, d) => (Throw error, {| db := d; world := w |})
          | (Return _, d) =>
              (Return (company, board_members), {| db := d; world := w |})
          end
      end
  end.



(** What the tool [getBoardMembers] answers. *)
Record BoardResponse := {
  b_org_number : string;
  b_count : nat;
  b_board_members : list PersonDetails;
  b_cached : bool
}.

(** [getBoardMembers(args)] of the tools (the method of the same name of
    the cache is [Database.getBoardMembers]). *)
Definition getBoardMembers_tool (cfg : MCPConfig) (arg_org_number : string)
    (force_refresh : bool) (st : State) : Completion BoardResponse * State :=
  match OrgNumberSchema arg_org_number with
  | Throw error => (Throw error, st)
  | Return org_number =>
      let now := clock (world st) in
      if force_refresh ||
         negb (bool_decide (is_Some (getCompany org_number (db st)))) then
        match scrapeCompany cfg org_number true (world st) with
        | (Throw error, w) => (Throw error, {| db := db st; world := w |})
        | (Return (_, board_members), w) =>
            match saveBoardMembers org_number board_members now (db st) with
            | (Throw error, d) => (Throw error, {| db := d; world := w |})
            | (Return _, d) =>
                (Return {| b_org_number := org_number;
                           b_count := length board_members;
                           b_board_members := board_members;
                           b_cached := false |},
                 {| db := d; world := w |})
            end
        end
      else
        let board_members := getBoardMembers org_number (db st) in
        (Return {| b_org_number := org_number;
                   b_count := length board_members;
                   b_board_members := board_members;
                   b_cached := true |},
         st)
  end.

End Tools.

(* ================================================================== *)
(** * Vocabulary of the statements, and sample data *)
(* ================================================================== *)

Section Vocabulary.

Import Validators Database BrowserPool Retry Scraper Tools.

(** [\d{n}] read directly: what is left of [s] after exactly [n] digits. *)
Fixpoint re_digits (n : nat) (s : string) : option string :=
  match n with
  | O => Some s
  | S n' =>
      match s with
      | String c rest => if is_digit c then re_digits n' rest else None
      | EmptyString => None
      end
  end.

(** [-?] read directly: the hyphen is taken whenever it is there. *)
Definition re_opt_hyphen (s : string) : string :=
  match s with
  | String c rest => if Ascii.eqb c "-" then rest else s
  | EmptyString => s
  end.

(** [/^\d{6}-?\d{4}$/] read directly, without backtracking. *)
Definition org_regex_test (val : string) : bool :=
  match re_digits 6 val with
  | Some rest =>
      match re_digits 4 (re_opt_hyphen rest) with
      | Some EmptyString => true
      | _ => false
      end
  | None => false
  end.

(** The two parts of a canonical key: six digits and four digits. *)
Definition key_parts (a b : string) : Prop :=
  String.length a = 6 /\ all_digits a = true /\
  String.length b = 4 /\ all_digits b = true.

(** The message of the schema's regex check. *)
Definition schema_message : string :=
  "Invalid Swedish organization number format (expected: XXXXXX-XXXX)".

(** The shape the schema accepts: six digits, an optional hyphen, four
    digits. *)
Definition schema_shape (val : string) : Prop :=
  exists a b, key_parts a b /\ (val = a +:+ b \/ val = a +:+ "-" +:+ b).


(** The row that [saveCompany] leaves under the key of the company. *)
Definition saved_row (company : CompanyData) (now : Z) (db : Db) : CompanyRow :=
  match companies db !! org_number company with
  | Some old => do_update old (bound_row company now)
  | None => bound_row company now
  end.


(** A company record with the given key, name, snapshot and fetch time,
    and nothing else filled in. *)
Definition sample_company (key title : string) (snapshot : option FinancialData)
    (fetched : Z) : CompanyData :=
  {| org_number := key; name := title; legal_form := Some "Aktiebolag";
     status := None; registration_date := None;
     contact := {| phone := None; address := None; postal_code := None;
                   city := Some "Stockholm"; municipality := None;
                   county := None |};
     tax_info := {| f_skatt := true; vat_registered := true;
                    employer_registered := false |};
     financials := snapshot;
     industry := {| sni_code := None; sni_description := None;
                    categories := Some []; activity_description := None |};
     bankgiro_number := None; has_remarks := false; remarks := None;
     source_url := "https://www.merinfo.se/foretag/" +:+ title;
     scraped_at := fetched; updated_at := None |}.

(** A financial snapshot for 2023 with revenue [r]. *)
Definition sample_snapshot (r : option Z) : FinancialData :=
  {| period := Some "2023"; revenue := r;
     profit_after_financial := Some 5000%Z; net_profit := Some 4000%Z;
     total_assets := Some 90000%Z; currency := "SEK" |}.

(** The cache after a fetch of ["556631-3788"] at time 1000. *)
Definition cache_with_old : Db :=
  saveCompany (sample_company "556631-3788" "Gamla AB" None 1000) 1000 empty_db.

(** The record a second fetch of the same key brings at time 2000. *)
Definition refetched : CompanyData :=
  sample_company "556631-3788" "Nya AB" (Some (sample_snapshot (Some 0%Z))) 2000.

(** A day in milliseconds. *)
Definition day : Z := Zpos ms_per_day.

(** The response of a tool call that is served from the cache. *)
Definition served (args : SearchCompanyByOrgNumberInput) (key : string)
    (now : Z) (db : Db) (c : CompanyData) : Response :=
  {| success := true; cached := true;
     cache_age_days := Some ((now - scraped_at c) / Zpos ms_per_day)%Z;
     company := c;
     board_members :=
       if include_board args then Some (getBoardMembers key db) else None |}.

(** A person of the board, as a fetch returns it. *)
Definition sample_person (key title : string) : PersonDetails :=
  {| p_id := None; p_org_number := key; p_name := title; p_role := "VD";
     personal_number := None; age := Some 52%Z; p_phone := None;
     p_address := {| street := None; apartment := None; p_postal_code := None;
                     p_city := None |};
     profile_url := None; p_scraped_at := Some 1000%Z |}.

(** A site on which the search finds the company, unflagged, and the
    company page can be read; [found] are the people its pages yield. *)
Definition sample_site (c : CompanyData) (found : list PersonDetails) : Site :=
  {| search_goto := None; results_rendered := true;
     card := Some {| hasWarning := false;
                     link := Some {| textContent := Some (name c);
                                     href := Some "/foretag/nya-ab" |} |};
     body_text := Some "Nya AB 556631-3788";
     company_page := Return c;
     person_pages := found |}.

(** A world with a new pool in which every page sees the same site. *)
Definition sample_world (s : Site) (now : Z) : World :=
  {| pool := new_pool; clock := now; site := fun _ => s; pages := 0;
     trace := [] |}.

(** The cache holds the company and one person of its board; the site
    now shows the company with no person at all. *)
Definition state_with_person : State :=
  {| db := (saveBoardMembers "556631-3788"
              [sample_person "556631-3788" "Anna Andersson"] 1000
              cache_with_old).2;
     world := sample_world (sample_site refetched []) 2000 |}.

(** A forced refresh with the board requested. *)
Definition refresh_with_board : SearchCompanyByOrgNumberInput :=
  {| in_org_number := "556631-3788"; force_refresh := true;
     include_board := true |}.

(** The contexts the first loop of [cleanupOldContexts] collects. *)
Definition contextsToRemove (now : Z) (p : Pool) : list nat :=
  (map_to_list (filter (too_old now) (contextAge p))).*1.

(** What holds of every pool that the methods produce: the bound on the
    array; every context of the array has a timestamp, was created by
    the pool and is not closed; closed contexts and timestamps belong to
    contexts the pool created (contexts are numbered as they are
    created); and every context the pool created is in the array or
    closed. *)
Definition pool_inv (p : Pool) : Prop :=
  length (contexts p) <= maxContexts /\
  (forall c, c ∈ contexts p ->
     is_Some (contextAge p !! c) /\ c < next_context p /\ c ∉ closed p) /\
  (forall c, c ∈ closed p -> c < next_context p) /\
  (forall c, is_Some (contextAge p !! c) -> c < next_context p) /\
  (forall c, c < next_context p -> c ∈ contexts p \/ c ∈ closed p).

(** A pool whose one context was created at time 0, and the same pool
    after that context was released at 590 s. *)
Definition pool_after_acquire : Pool := (acquireContext 0 new_pool).2.


(** The outcome of one attempt, read off the site the page sees. *)
Definition attempt_outcome (cfg : MCPConfig) (key : string)
    (include_board : bool) (s : Site) (now : Z)
  : Completion (CompanyData * list PersonDetails) :=
  match searchCompany s key with
  | Throw error => Throw error
  | Return None => Throw (NoSuchCompanyError key)
  | Return (Some companyUrl) =>
      if isSearchLimitReached s then Throw limit_error
      else
        match scrapeCompanyPage s companyUrl key now with
        | Throw error => Throw error
        | Return company =>
            Return (company,
                    if include_board && enable_person_details cfg
                    then scrapeBoardMembers s key now else [])
        end
  end.

(** Whether the attempt on site [s] opens the company page. *)
Definition opens_company_page (key : string) (s : Site) : bool :=
  match searchCompany s key with
  | Return (Some _) => negb (isSearchLimitReached s)
  | _ => false
  end.

(** A site whose result card for the company shows the red remark. *)
Definition flagged_site : Site :=
  {| search_goto := None; results_rendered := true;
     card := Some {| hasWarning := true;
                     link := Some {| textContent := Some "Varnad AB";
                                     href := Some "/foretag/varnad-ab" |} |};
     body_text := Some "Varnad AB 556631-3788";
     company_page := Return refetched;
     person_pages := [] |}.

(** The page of the search limit: the text of the limit and no card. *)
Definition limit_site : Site :=
  {| search_goto := None; results_rendered := false; card := None;
     body_text := Some "merinfo.se Oops, din sökgräns är nådd! Logga in";
     company_page := Return refetched;
     person_pages := [] |}.


(** Playwright's timeout error, and a site whose company page meets it. *)
Definition TimeoutError : JsError :=
  mkError "TimeoutError" "Timeout 10000ms exceeded." None.

Definition timeout_site : Site :=
  {| search_goto := None; results_rendered := true;
     card := Some {| hasWarning := false;
                     link := Some {| textContent := Some "Nya AB";
                                     href := Some "/foretag/nya-ab" |} |};
     body_text := Some "Nya AB 556631-3788";
     company_page := Throw TimeoutError;
     person_pages := [] |}.

(** A world in which the first page meets a timeout and later ones the
    company. *)
Definition flaky_world : World :=
  {| pool := new_pool; clock := 2000;
     site := fun page => match page with
                         | O => timeout_site
                         | _ => sample_site refetched []
                         end;
     pages := 0; trace := [] |}.

(** What the search finds on a site: the card of a flagged company. *)
Definition shows_flag (s : Site) (companyName : option string) : Prop :=
  search_goto s = None /\ results_rendered s = true /\
  exists c a, card s = Some c /\ hasWarning c = true /\ link c = Some a /\
              textContent a = companyName.

End Vocabulary.

(* ================================================================== *)
(** * Vocabulary of the further properties *)
(* ================================================================== *)

Section LimiterVocabulary.

Import RateLimiter.

Local Open Scope Q_scope.

(** A bucket within its bounds. *)
Definition bucket_ok (b : TokenBucket) : Prop :=
  0 <= tokens b /\ tokens b <= maxTokens b.

(** The tokens of a bucket once it is refilled at [now]. *)
Definition refilled (b : TokenBucket) (now : Z) : Q :=
  tokens (refillBucket b now).

(** [k] calls of [checkLimit] in a row at the same instant: the answers,
    first call first, and the limiter they leave. *)
Fixpoint checks (k : nat) (identifier : string) (now : Z) (l : Limiter)
  : list bool * Limiter :=
  match k with
  | O => ([], l)
  | S k' =>
      let '(answer, l) := checkLimit identifier now l in
      let '(answers, l) := checks k' identifier now l in
      (answer :: answers, l)
  end.

End LimiterVocabulary.

(* ================================================================== *)
(** * Vocabulary of the further properties of the cache *)
(* ================================================================== *)

Section CacheVocabulary.

Import Validators Database BrowserPool Retry Scraper Tools.

(** [PRAGMA foreign_keys = ON] as a property of the tables: every person
    row refers to a company row. *)
Definition foreign_keys (db : Db) : Prop :=
  forall row, row ∈ people db -> is_Some (companies db !! pr_org_number row).

(** What [getBoardMembers] returns for a person saved under [id]. *)
Definition stored_person (now : Z) (id : nat) (member : PersonDetails)
  : PersonDetails :=
  rowToPerson (person_row id member now).

(** The people the site shows for the sample company. *)
Definition sample_board : list PersonDetails :=
  [sample_person "556631-3788" "Anna Andersson"].

(** A state with an empty cache, in front of a site that shows the
    sample company and one person of its board. *)
Definition state_uncached : State :=
  {| db := empty_db;
     world := sample_world (sample_site refetched sample_board) 2000 |}.

(** The cache holds the sample company, fetched at time 1000, and the
    clock reads eight days later; the site shows the company. *)
Definition state_stale : State :=
  {| db := cache_with_old;
     world := sample_world (sample_site refetched []) (1000 + 8 * day) |}.

(** A search that does not force a refresh. *)
Definition plain_search : SearchCompanyByOrgNumberInput :=
  {| in_org_number := "5566313788"; force_refresh := false;
     include_board := true |}.

(** A pool that has handed out three contexts, at 0, 10 and 20 ms. *)
Definition full_pool : Pool :=
  (acquireContext 20 (acquireContext 10 (acquireContext 0 new_pool).2).2).2.

End CacheVocabulary.

(* ================================================================== *)
(** * Properties of the organisation-number validators *)
(* ================================================================== *)

Section ValidatorFacts.

Import Validators.

Local Arguments String.append !s1 s2 : simpl nomatch.

Lemma append_assoc (a b c : string) : (a +:+ b) +:+ c = a +:+ (b +:+ c).
Proof. induction a as [|x a IH]; simpl; congruence. Qed.

Lemma length_append (a b : string) :
  String.length (a +:+ b) = String.length a + String.length b.
Proof. induction a as [|x a IH]; simpl; congruence. Qed.

Lemma all_digits_append (a b : string) :
  all_digits (a +:+ b) = all_digits a && all_digits b.
Proof.
  induction a as [|x a IH]; simpl; [reflexivity |].
  rewrite IH. now rewrite andb_assoc.
Qed.

Lemma re_digits_Some n s r :
  re_digits n s = Some r <->
  exists a, s = a +:+ r /\ String.length a = n /\ all_digits a = true.
Proof.
  revert s. induction n as [|n IH]; intros s; simpl.
  - split.
    + intros [= <-]. exists EmptyString. auto.
    + intros (a & -> & Hlen & _). destruct a; [reflexivity | discriminate].
  - destruct s as [|c s].
    + split; [discriminate |].
      intros (a & Heq & Hlen & _). destruct a; discriminate.
    + destruct (is_digit c) eqn:Hc.
      * rewrite IH. split.
        -- intros (a & -> & Hlen & Ha). exists (String c a). simpl.
           rewrite Hc, Ha, Hlen. auto.
        -- intros (a & Heq & Hlen & Ha). destruct a as [|x a]; [discriminate |].
           simpl in *. injection Heq as -> ->. injection Hlen as Hlen.
           apply andb_true_iff in Ha as [_ Ha]. eauto.
      * split; [discriminate |].
        intros (a & Heq & Hlen & Ha). destruct a as [|x a]; [discriminate |].
        simpl in *. injection Heq as -> ->. rewrite Hc in Ha. discriminate.
Qed.

Lemma replace_non_digits_append (a b : string) :
  replace_non_digits (a +:+ b) = replace_non_digits a +:+ replace_non_digits b.
Proof.
  induction a as [|x a IH]; simpl; [reflexivity |].
  destruct (is_digit x); simpl; now rewrite IH.
Qed.

Lemma replace_non_digits_id (a : string) :
  all_digits a = true -> replace_non_digits a = a.
Proof.
  induction a as [|x a IH]; simpl; [reflexivity |].
  intros [Hx Ha]%andb_true_iff. rewrite Hx. now rewrite IH.
Qed.

Lemma all_digits_replace (s : string) : all_digits (replace_non_digits s) = true.
Proof.
  induction s as [|x s IH]; simpl; [reflexivity |].
  destruct (is_digit x) eqn:Hx; simpl; [now rewrite Hx |]; exact IH.
Qed.

Lemma slice_to_append n (a b : string) :
  String.length a = n -> slice_to n (a +:+ b) = a.
Proof.
  revert a. induction n as [|n IH]; intros [|x a]; simpl; try discriminate; auto.
  intros [= Hlen]. now rewrite IH.
Qed.

Lemma slice_from_append n (a b : string) :
  String.length a = n -> slice_from n (a +:+ b) = b.
Proof.
  revert a. induction n as [|n IH]; intros [|x a]; simpl; try discriminate; auto.
Qed.

Lemma slice_split n (s : string) : slice_to n s +:+ slice_from n s = s.
Proof.
  revert s. induction n as [|n IH]; intros [|x s]; simpl; auto.
  now rewrite IH.
Qed.

Lemma length_slice_to n (s : string) :
  n <= String.length s -> String.length (slice_to n s) = n.
Proof.
  revert s. induction n as [|n IH]; intros [|x s]; simpl; auto; try lia.
  intros H. rewrite IH; lia.
Qed.

Lemma hyphenate_parts (a b : string) :
  String.length a = 6 -> hyphenate (a +:+ b) = a +:+ "-" +:+ b.
Proof.
  intros Ha. unfold hyphenate.
  now rewrite slice_to_append, slice_from_append.
Qed.

(** A string of ten digits splits into the two parts of a key. *)
Lemma ten_digits_parts (d : string) :
  String.length d = 10 -> all_digits d = true ->
  key_parts (slice_to 6 d) (slice_from 6 d).
Proof.
  intros Hlen Hd.
  pose proof (slice_split 6 d) as Hsplit.
  assert (H6 : String.length (slice_to 6 d) = 6)
    by (apply length_slice_to; lia).
  assert (H4 : String.length (slice_from 6 d) = 4).
  { pose proof (length_append (slice_to 6 d) (slice_from 6 d)) as H.
    rewrite Hsplit in H. lia. }
  rewrite <- Hsplit, all_digits_append in Hd.
  apply andb_true_iff in Hd as [Hd1 Hd2].
  repeat split; assumption.
Qed.

Lemma rests_rep_digit (n : nat) (s : string) :
  rests (Rep n Digit) s =
  match re_digits n s with Some rest => [rest] | None => [] end.
Proof.
  revert s. induction n as [|n IH]; intros s; [reflexivity |].
  change (rests (Rep (S n) Digit) s)
    with (flat_map (rests (Rep n Digit)) (rests Digit s)).
  destruct s as [|c s]; [reflexivity |].
  change (rests Digit (String c s)) with (if is_digit c then [s] else []).
  change (re_digits (S n) (String c s))
    with (if is_digit c then re_digits n s else None).
  destruct (is_digit c); [|reflexivity].
  cbn [flat_map]. now rewrite app_nil_r, IH.
Qed.

(** The backtracking matcher and the direct reading agree: a hyphen is
    no digit, so the branch that skips a hyphen that is there cannot go
    on with [\d{4}]. *)
Lemma regex_test_org (val : string) :
  regex_test org_regex val = org_regex_test val.
Proof.
  unfold regex_test, org_regex_test, org_regex.
  change (rests (Seq (Rep 6 Digit) (Seq (Opt (Lit "-")) (Rep 4 Digit))) val)
    with (flat_map
            (fun s => flat_map (rests (Rep 4 Digit)) (rests (Lit "-") s ++ [s]))
            (rests (Rep 6 Digit) val)).
  rewrite rests_rep_digit.
  destruct (re_digits 6 val) as [rest|]; [|reflexivity].
  cbn [flat_map]. rewrite app_nil_r, flat_map_app. cbn [flat_map].
  rewrite app_nil_r, rests_rep_digit.
  destruct rest as [|c rest].
  - change (rests (Lit "-") "") with (@nil string).
    cbn [flat_map app re_opt_hyphen].
    now destruct (re_digits 4 "") as [[|]|].
  - change (rests (Lit "-") (String c rest))
      with (if Ascii.eqb c "-" then [rest] else []).
    cbn [re_opt_hyphen].
    destruct (Ascii.eqb_spec c "-") as [-> | Hne].
    + cbn [flat_map]. rewrite app_nil_r, rests_rep_digit.
      change (re_digits 4 (String "-" rest)) with (@None string).
      rewrite app_nil_r.
      now destruct (re_digits 4 rest) as [[|]|].
    + cbn [flat_map app].
      now destruct (re_digits 4 (String c rest)) as [[|]|].
Qed.

(** The regular expression of the schema accepts the two shapes of a key
    and nothing else. *)
Lemma org_regex_test_true (val : string) :
  org_regex_test val = true <->
  exists a b, key_parts a b /\ (val = a +:+ b \/ val = a +:+ "-" +:+ b).
Proof.
  unfold org_regex_test, key_parts. split.
  - destruct (re_digits 6 val) as [rest|] eqn:H6; [|discriminate].
    apply re_digits_Some in H6 as (a & -> & Ha & Hda).
    destruct (re_digits 4 (re_opt_hyphen rest)) as [[|]|] eqn:H4;
      try discriminate.
    intros _. apply re_digits_Some in H4 as (b & Hb & Hlb & Hdb).
    exists a, b. split; [auto |].
    assert (Hb' : re_opt_hyphen rest = b)
      by (rewrite Hb; clear; induction b; simpl; congruence).
    destruct rest as [|c rest]; simpl in Hb'.
    + left. now subst.
    + destruct (Ascii.eqb_spec c "-"); subst; auto.
  - intros (a & b & (Ha & Hda & Hb & Hdb) & Hval).
    assert (Hdigits : forall r, re_digits 6 (a +:+ r) = Some r)
      by (intros r; apply re_digits_Some; eauto).
    assert (Hfour : re_digits 4 b = Some EmptyString).
    { apply re_digits_Some. exists b. split; [|auto].
      clear. induction b; simpl; congruence. }
    destruct Hval as [-> | ->]; rewrite Hdigits.
    + assert (Hskip : re_opt_hyphen b = b).
      { destruct b as [|c b]; [reflexivity |]. simpl.
        destruct (Ascii.eqb_spec c "-") as [-> | _]; [|reflexivity].
        simpl in Hdb. discriminate. }
      now rewrite Hskip, Hfour.
    + change (re_opt_hyphen ("-" +:+ b)) with b. now rewrite Hfour.
Qed.

End ValidatorFacts.

Section KeyNormalization.

Import Validators.

Local Arguments String.append !s1 s2 : simpl nomatch.

Lemma replace_plain (a b : string) :
  all_digits a = true -> all_digits b = true ->
  replace_non_digits (a +:+ b) = a +:+ b.
Proof.
  intros Ha Hb. rewrite replace_non_digits_append.
  now rewrite (replace_non_digits_id a), (replace_non_digits_id b).
Qed.

Lemma replace_hyphenated (a b : string) :
  all_digits a = true -> all_digits b = true ->
  replace_non_digits (a +:+ "-" +:+ b) = a +:+ b.
Proof.
  intros Ha Hb. rewrite replace_non_digits_append.
  change (replace_non_digits ("-" +:+ b)) with (replace_non_digits b).
  now rewrite (replace_non_digits_id a), (replace_non_digits_id b).
Qed.

Lemma OrgNumberSchema_Return (val r : string) :
  OrgNumberSchema val = Return r <->
  exists a b, key_parts a b /\ (val = a +:+ b \/ val = a +:+ "-" +:+ b) /\
              r = a +:+ "-" +:+ b.
Proof.
  unfold OrgNumberSchema. rewrite regex_test_org. split.
  - destruct (org_regex_test val) eqn:Htest; [|discriminate].
    apply org_regex_test_true in Htest as (a & b & Hparts & Hval).
    intros [= <-]. exists a, b. split; [assumption |]. split; [assumption |].
    destruct Hparts as (Ha & Hda & Hb & Hdb).
    destruct Hval as [-> | ->];
      [rewrite replace_plain by assumption
      |rewrite replace_hyphenated by assumption];
      now apply hyphenate_parts.
  - intros (a & b & Hparts & Hval & ->).
    assert (Htest : org_regex_test val = true)
      by (apply org_regex_test_true; eauto).
    rewrite Htest. f_equal.
    destruct Hparts as (Ha & Hda & Hb & Hdb).
    destruct Hval as [-> | ->];
      [rewrite replace_plain by assumption
      |rewrite replace_hyphenated by assumption];
      now apply hyphenate_parts.
Qed.

Lemma OrgNumberSchema_Throw (val : string) :
  ~ schema_shape val -> OrgNumberSchema val = Throw (ZodError schema_message).
Proof.
  intros Hshape. unfold OrgNumberSchema. rewrite regex_test_org.
  destruct (org_regex_test val) eqn:Htest; [|reflexivity].
  apply org_regex_test_true in Htest. contradiction.
Qed.

Lemma normalizeOrgNumber_ten (val : string) :
  String.length (replace_non_digits val) = 10 ->
  exists a b, key_parts a b /\ replace_non_digits val = a +:+ b /\
              normalizeOrgNumber val = Return (a +:+ "-" +:+ b).
Proof.
  intros Hlen.
  exists (slice_to 6 (replace_non_digits val)),
         (slice_from 6 (replace_non_digits val)).
  split; [apply ten_digits_parts; [assumption | apply all_digits_replace] |].
  split; [now rewrite slice_split |].
  unfold normalizeOrgNumber. rewrite Hlen. reflexivity.
Qed.

Lemma normalizeOrgNumber_other (val : string) :
  String.length (replace_non_digits val) <> 10 ->
  normalizeOrgNumber val =
  Throw (Error ("Invalid organization number: " +:+ val)).
Proof.
  intros Hlen. unfold normalizeOrgNumber.
  destruct (Nat.eqb_spec (String.length (replace_non_digits val)) 10);
    [contradiction | reflexivity].
Qed.

(** A canonical key is left as it is by both functions. *)
Lemma canonical_fixed (a b : string) :
  key_parts a b ->
  OrgNumberSchema (a +:+ "-" +:+ b) = Return (a +:+ "-" +:+ b) /\
  normalizeOrgNumber (a +:+ "-" +:+ b) = Return (a +:+ "-" +:+ b).
Proof.
  intros Hparts. split.
  - apply OrgNumberSchema_Return. exists a, b. auto.
  - destruct Hparts as (Ha & Hda & Hb & Hdb).
    unfold normalizeOrgNumber.
    rewrite replace_hyphenated by assumption.
    rewrite length_append, Ha, Hb. simpl.
    now rewrite hyphenate_parts.
Qed.

Example schema_without_hyphen :
  OrgNumberSchema "5566313788" = Return "556631-3788".
Proof. reflexivity. Qed.

Example schema_with_hyphen :
  OrgNumberSchema "556631-3788" = Return "556631-3788".
Proof. reflexivity. Qed.

Example schema_too_short :
  OrgNumberSchema "12345" = Throw (ZodError schema_message).
Proof. reflexivity. Qed.

Example normalize_with_prefix :
  normalizeOrgNumber "org.nr: 556631-3788" = Return "556631-3788".
Proof. reflexivity. Qed.

(** C9, as stated, fails: ["556631 3788"] reduces to exactly ten digits
    once the space is removed, yet the schema that guards every tool
    rejects it instead of mapping it to ["556631-3788"]. *)
Lemma key_space_rejected :
  replace_non_digits "556631 3788" = "5566313788" /\
  String.length (replace_non_digits "556631 3788") = 10 /\
  OrgNumberSchema "556631 3788" = Throw (ZodError schema_message) /\
  normalizeOrgNumber "556631 3788" = Return "556631-3788".
Proof. repeat split; reflexivity. Qed.

(** C9, amended.  [OrgNumberSchema], the validation in front of every
    tool, accepts exactly the inputs made of six digits, an optional
    hyphen and four digits, maps them to six digits, a hyphen, four
    digits, is idempotent, and rejects every other input with a
    validation error; so ["5566313788"] and ["556631-3788"] both give
    ["556631-3788"] and ["12345"] is rejected.  Removing arbitrary other
    characters is what [normalizeOrgNumber] does: it maps every input
    with exactly ten digits among its characters to the canonical form of
    those digits and throws on every other input; on what the schema
    accepts the two agree. *)
Theorem key_normalization (val : string) :
  (forall r, OrgNumberSchema val = Return r <->
     exists a b, key_parts a b /\
       (val = a +:+ b \/ val = a +:+ "-" +:+ b) /\ r = a +:+ "-" +:+ b) /\
  (~ schema_shape val -> OrgNumberSchema val = Throw (ZodError schema_message)) /\
  (forall r, OrgNumberSchema val = Return r ->
     OrgNumberSchema r = Return r /\ normalizeOrgNumber val = Return r /\
     normalizeOrgNumber r = Return r) /\
  (String.length (replace_non_digits val) = 10 ->
     exists a b, key_parts a b /\ replace_non_digits val = a +:+ b /\
       normalizeOrgNumber val = Return (a +:+ "-" +:+ b)) /\
  (String.length (replace_non_digits val) <> 10 ->
     normalizeOrgNumber val =
     Throw (Error ("Invalid organization number: " +:+ val))) /\
  OrgNumberSchema "5566313788" = Return "556631-3788" /\
  OrgNumberSchema "556631-3788" = Return "556631-3788" /\
  OrgNumberSchema "12345" = Throw (ZodError schema_message).
Proof.
  split; [intros r; apply OrgNumberSchema_Return |].
  split; [apply OrgNumberSchema_Throw |].
  split.
  { intros r (a & b & Hparts & Hval & ->)%OrgNumberSchema_Return.
    destruct (canonical_fixed a b Hparts) as [Hschema Hnorm].
    repeat split; try assumption.
    destruct Hparts as (Ha & Hda & Hb & Hdb).
    destruct Hval as [-> | ->]; [|assumption].
    unfold normalizeOrgNumber.
    rewrite replace_plain by assumption.
    rewrite length_append, Ha, Hb. simpl. now rewrite hyphenate_parts. }
  split; [apply normalizeOrgNumber_ten |].
  split; [apply normalizeOrgNumber_other |].
  repeat split; reflexivity.
Qed.

(** The theorem at ["org.nr: 556631-3788"], which has ten digits among
    its characters and is not of the shape the schema accepts. *)
Lemma key_normalization_witness :
  exists a b, key_parts a b /\
    replace_non_digits "org.nr: 556631-3788" = a +:+ b /\
    normalizeOrgNumber "org.nr: 556631-3788" = Return (a +:+ "-" +:+ b).
Proof.
  apply (key_normalization "org.nr: 556631-3788"). reflexivity.
Defined.

End KeyNormalization.

(* ================================================================== *)
(** * Properties of the backoff delay *)
(* ================================================================== *)

Section BackoffFacts.

Import Backoff.

Local Open Scope Q_scope.

(** The clamp: no delay before jitter is above the ceiling. *)
Lemma baseDelay_le_max (b : BackoffStrategy) (attempt : Z) :
  baseDelay b attempt <= maxDelayMs b.
Proof. unfold baseDelay. apply Q.le_min_r. Qed.

Lemma baseDelay_1 : baseDelay default_strategy 1 == 2000.
Proof. vm_compute. reflexivity. Qed.

Lemma baseDelay_5 : baseDelay default_strategy 5 == 30000.
Proof. vm_compute. reflexivity. Qed.

(** With jitter on, the delay lies within a quarter of the clamped delay
    on either side. *)
Lemma getDelay_jitter_bounds (b : BackoffStrategy) (attempt : Z) (random base : Q) :
  jitter b = true -> baseDelay b attempt == base -> 0 <= base ->
  0 <= random -> random < 1 ->
  base * (3 # 4) <= getDelay b attempt random /\
  getDelay b attempt random < base * (5 # 4) \/
  base == 0 /\ getDelay b attempt random == 0.
Proof.
  intros Hj Hbase Hpos Hr0 Hr1. unfold getDelay. rewrite Hj. simpl negb. cbv iota.
  set (x := baseDelay b attempt + _).
  assert (Hx : x == base + (random * (base * (25 # 100)) * 2 - base * (25 # 100)))
    by (unfold x; now rewrite Hbase).
  assert (Hbr : 0 <= base * random) by now apply Qmult_le_0_compat.
  assert (Hlo : base * (3 # 4) <= x) by (rewrite Hx; lra).
  destruct (Qlt_le_dec 0 base) as [Hb | Hb].
  - left.
    assert (Hbr1 : base * random < base * 1) by now apply Qmult_lt_l.
    assert (Hhi : x < base * (5 # 4)) by (rewrite Hx; lra).
    destruct (Q.max_spec 0 x) as [[Hx0 Hmax] | [Hx0 Hmax]]; rewrite Hmax;
      split; try assumption; lra.
  - right. assert (Hz : base == 0) by lra. split; [assumption |].
    assert (Hx0 : x == 0) by (rewrite Hx, Hz; ring).
    destruct (Q.max_spec 0 x) as [[_ Hmax] | [_ Hmax]]; rewrite Hmax;
      [assumption | reflexivity].
Qed.

(** C8, as stated, fails: with [Math.random()] at 0.75 the delay of
    attempt 5 is 33750 ms, above the ceiling of 30000 ms. *)
Lemma backoff_attempt_5_above_ceiling :
  0 <= 3 # 4 /\ 3 # 4 < 1 /\
  getDelay default_strategy 5 (3 # 4) == 33750 /\
  30000 < getDelay default_strategy 5 (3 # 4).
Proof. repeat split; vm_compute; congruence. Qed.

(** C8, amended.  For the schedule with initial delay 2000 ms, multiplier
    2, ceiling 30000 ms and jitter on, and for every value of
    [Math.random()]: the delay of attempt 1 lies in [1500, 2500]; the
    delay of attempt 5 before jitter is the ceiling, 30000 ms, and after
    jitter (applied after the clamp, unclamped) it lies in
    [22500, 37500], so it can exceed the ceiling. *)
Theorem backoff_delays (random : Q) :
  0 <= random -> random < 1 ->
  (1500 <= getDelay default_strategy 1 random /\ getDelay default_strategy 1 random <= 2500) /\
  baseDelay default_strategy 5 == 30000 /\
  (22500 <= getDelay default_strategy 5 random /\ getDelay default_strategy 5 random <= 37500).
Proof.
  intros Hr0 Hr1.
  destruct (getDelay_jitter_bounds default_strategy 1 random 2000 eq_refl baseDelay_1)
    as [[Hlo Hhi] | [Hz _]]; try assumption; try lra.
  destruct (getDelay_jitter_bounds default_strategy 5 random 30000 eq_refl baseDelay_5)
    as [[Hlo' Hhi'] | [Hz _]]; try assumption; try lra.
  split; [split; lra |]. split; [exact baseDelay_5 |]. split; lra.
Qed.

(** The theorem at [Math.random() = 0.75]. *)
Lemma backoff_delays_witness :
  (1500 <= getDelay default_strategy 1 (3 # 4) /\ getDelay default_strategy 1 (3 # 4) <= 2500) /\
  baseDelay default_strategy 5 == 30000 /\
  (22500 <= getDelay default_strategy 5 (3 # 4) /\ getDelay default_strategy 5 (3 # 4) <= 37500).
Proof. apply (backoff_delays (3 # 4)); vm_compute; congruence. Defined.

(** X6.  Whatever the strategy and the attempt: with jitter on, the delay is
    never negative and never more than a quarter above the ceiling;
    with jitter off it is the clamped delay, at most the ceiling. *)
Theorem getDelay_within_ceiling (b : BackoffStrategy) (attempt : Z) (random : Q) :
  0 <= maxDelayMs b -> 0 <= random -> random < 1 ->
  (jitter b = true ->
     0 <= getDelay b attempt random /\
     getDelay b attempt random <= (5 # 4) * maxDelayMs b) /\
  (jitter b = false ->
     getDelay b attempt random = baseDelay b attempt /\
     getDelay b attempt random <= maxDelayMs b).
Proof.
  intros Hmax Hr0 Hr1. pose proof (baseDelay_le_max b attempt) as Hbase.
  unfold getDelay. split; intros ->; cbn [negb]; cbv iota; [|auto].
  set (base := baseDelay b attempt) in *.
  set (x := base + _).
  assert (Hx : x == base * (3 # 4) + (1 # 2) * (base * random))
    by (unfold x; ring).
  split; [apply Q.le_max_l |].
  apply Q.max_lub; [lra |]. rewrite Hx.
  destruct (Qlt_le_dec base 0) as [Hneg | Hpos].
  - assert (base * random <= 0).
    { assert (E : base * random == - (- base * random)) by ring.
      assert (0 <= - base * random) by (apply Qmult_le_0_compat; lra). lra. }
    lra.
  - assert (base * random <= base * 1)
      by (rewrite !(Qmult_comm base); apply Qmult_le_compat_r; lra).
    lra.
Qed.

(** The theorem at the default strategy, attempt 3, [Math.random()] at
    0.25. *)
Lemma getDelay_within_ceiling_witness :
  (jitter default_strategy = true ->
     0 <= getDelay default_strategy 3 (1 # 4) /\
     getDelay default_strategy 3 (1 # 4) <= (5 # 4) * maxDelayMs default_strategy) /\
  (jitter default_strategy = false ->
     getDelay default_strategy 3 (1 # 4) = baseDelay default_strategy 3 /\
     getDelay default_strategy 3 (1 # 4) <= maxDelayMs default_strategy).
Proof.
  apply (getDelay_within_ceiling default_strategy 3 (1 # 4));
    vm_compute; congruence.
Defined.

End BackoffFacts.

(* ================================================================== *)
(** * Properties of the cache store *)
(* ================================================================== *)

Section DatabaseFacts.

Import Database.

Lemma saveCompany_lookup (company : CompanyData) (now : Z) (db : Db) :
  companies (saveCompany company now db) !! org_number company =
  Some (saved_row company now db).
Proof. unfold saveCompany, saved_row. simpl. apply lookup_insert_eq. Qed.


Lemma saveCompany_people (company : CompanyData) (now : Z) (db : Db) :
  people (saveCompany company now db) = people db.
Proof. reflexivity. Qed.








Example revenue_zero_drops_snapshot :
  let d := {| period := Some "2023"; revenue := Some 0%Z;
              profit_after_financial := Some 5000%Z; net_profit := Some 4000%Z;
              total_assets := Some 90000%Z; currency := "SEK" |} in
  let company :=
    {| org_number := "556631-3788"; name := "Exempel AB"; legal_form := None;
       status := None; registration_date := None;
       contact := {| phone := None; address := None; postal_code := None;
                     city := None; municipality := None; county := None |};
       tax_info := {| f_skatt := true; vat_registered := true;
                      employer_registered := false |};
       financials := Some d;
       industry := {| sni_code := None; sni_description := None;
                      categories := None; activity_description := None |};
       bankgiro_number := None; has_remarks := false; remarks := None;
       source_url := "https://www.merinfo.se/foretag/exempel";
       scraped_at := 1000; updated_at := None |} in
  (financials <$> getCompany "556631-3788" (saveCompany company 2000 empty_db))
    = Some None /\
  (r_net_profit <$> companies (saveCompany company 2000 empty_db) !! "556631-3788")
    = Some (Some 4000%Z).
Proof. split; vm_compute; reflexivity. Qed.

End DatabaseFacts.

Section Overwrite.

Import Database.





End Overwrite.

(* ================================================================== *)
(** * Properties of the freshness decision and of the tools *)
(* ================================================================== *)

Section ToolFacts.

Import Validators Database BrowserPool Scraper Tools.

Lemma Qgtb_true (a b : Q) : Qgtb a b = true <-> (b < a)%Q.
Proof.
  unfold Qgtb. rewrite negb_true_iff. split.
  - intros Hle. apply Qnot_le_lt. intros H%Qle_bool_iff. congruence.
  - intros Hlt. destruct (Qle_bool a b) eqn:Hle; [|reflexivity].
    apply Qle_bool_iff in Hle. now apply Qlt_not_le in Hlt.
Qed.

Lemma age_days_after (t n : Z) : age_days (t + n * day) t = (n * day # ms_per_day).
Proof. unfold age_days. f_equal. lia. Qed.

Lemma freshness_hit (cfg : MCPConfig) (key : string) (force : bool) (now : Z)
    (db : Db) (row : CompanyRow) :
  companies db !! key = Some row ->
  freshness cfg key force now db =
  if negb force &&
     negb (Qgtb (age_days now (r_scraped_at row)) (inject_Z (cache_stale_days cfg)))
  then Serve (rowToCompany row) else Fetch.
Proof.
  intros Hrow. unfold freshness, getCompany, isCacheStale. now rewrite Hrow.
Qed.

(** C1.  With no record under the key the decision is [Fetch].  With a
    record it is [Fetch] exactly when [force_refresh] is set or the age
    of the record in days is strictly above the threshold, and otherwise
    [Serve] of that record.  With the default threshold of 7 days: a
    record fetched at [T] is served at [T] + 6 days and at [T] + 7 days,
    fetched again at [T] + 8 days, and fetched again at [T] when
    [force_refresh] is set.  In [searchCompanyByOrgNumber], [Serve]
    returns the cached record and leaves cache and world as they were,
    and [Fetch] runs the scraper. *)
Theorem freshness_decision (cfg : MCPConfig) (key : string) (force : bool)
    (now : Z) (store : Db) :
  (companies store !! key = None -> freshness cfg key force now store = Fetch) /\
  (forall row, companies store !! key = Some row ->
     (freshness cfg key force now store = Fetch <->
        force = true \/
        (inject_Z (cache_stale_days cfg) < age_days now (r_scraped_at row))%Q) /\
     (freshness cfg key force now store <> Fetch ->
        freshness cfg key force now store = Serve (rowToCompany row)) /\
     freshness DEFAULT_CONFIG key false (r_scraped_at row + 6 * day) store =
       Serve (rowToCompany row) /\
     freshness DEFAULT_CONFIG key false (r_scraped_at row + 7 * day) store =
       Serve (rowToCompany row) /\
     freshness DEFAULT_CONFIG key false (r_scraped_at row + 8 * day) store = Fetch /\
     freshness DEFAULT_CONFIG key true (r_scraped_at row + 0 * day) store = Fetch) /\
  (forall args st,
     OrgNumberSchema (in_org_number args) = Return key ->
     force_refresh args = force -> db st = store -> clock (world st) = now ->
     (forall c, freshness cfg key force now store = Serve c ->
        searchCompanyByOrgNumber cfg args st =
        (Return (served args key now store c), st)) /\
     (freshness cfg key force now store = Fetch ->
        world (searchCompanyByOrgNumber cfg args st).2 =
        (scrapeCompany cfg key (include_board args) (world st)).2)).
Proof.
  split; [|split].
  - intros Hnone. unfold freshness, getCompany. now rewrite Hnone.
  - intros row Hrow. rewrite !(freshness_hit _ _ _ _ _ row Hrow).
    rewrite !age_days_after.
    split; [|split; [|repeat split; vm_compute; reflexivity]].
    + rewrite <- Qgtb_true.
      destruct force, (Qgtb _ _); simpl; split; intros H;
        try reflexivity; try discriminate; auto.
      destruct H; discriminate.
    + now destruct (negb force && negb (Qgtb _ _)).
  - intros args st Hkey Hforce Hdb Hnow. subst force store now.
    unfold searchCompanyByOrgNumber. rewrite Hkey. split.
    + intros c ->. reflexivity.
    + intros ->.
      destruct (scrapeCompany cfg key (include_board args) (world st))
        as [[[company board]|error] w]; simpl; [|reflexivity].
      destruct (include_board args && (0 <? length board)%nat);
        [|reflexivity].
      now destruct (saveBoardMembers key board (clock (world st))
                      (saveCompany company (clock (world st)) (db st)))
        as [[[]|error] d].
Qed.

End ToolFacts.

Section ToolSamples.

Import Validators Database BrowserPool Scraper Tools.

(** The theorem at the cache that holds a record fetched at time 1000. *)
Lemma freshness_decision_witness :
  freshness DEFAULT_CONFIG "556631-3788" false (1000 + 6 * day) cache_with_old =
    Serve (rowToCompany (bound_row (sample_company "556631-3788" "Gamla AB" None 1000) 1000)) /\
  freshness DEFAULT_CONFIG "556631-3788" false (1000 + 8 * day) cache_with_old = Fetch /\
  freshness DEFAULT_CONFIG "556631-3788" true (1000 + 0 * day) cache_with_old = Fetch.
Proof.
  destruct (freshness_decision DEFAULT_CONFIG "556631-3788" false 1000 cache_with_old)
    as (_ & Hrow & _).
  destruct (Hrow (bound_row (sample_company "556631-3788" "Gamla AB" None 1000) 1000))
    as (_ & _ & H6 & _ & H8 & H0).
  - vm_compute. reflexivity.
  - exact (conj H6 (conj H8 H0)).
Defined.

Lemma filter_out_then_in (key : string) (rows : list PersonRow) :
  filter (fun row => pr_org_number row = key)
    (filter (fun row => pr_org_number row ≠ key) rows) = [].
Proof.
  induction rows as [|row rows IH]; [reflexivity |].
  rewrite (filter_cons (fun row => pr_org_number row ≠ key)).
  destruct (decide (pr_org_number row ≠ key)) as [Hne | Heq]; [|exact IH].
  rewrite filter_cons. destruct (decide (pr_org_number row = key)); [contradiction |].
  exact IH.
Qed.

(** [saveBoardMembers] with no member empties the rows of the key. *)
Lemma saveBoardMembers_none (key : string) (now : Z) (store : Db) :
  (saveBoardMembers key [] now store).1 = Return tt /\
  getBoardMembers key (saveBoardMembers key [] now store).2 = [].
Proof.
  split; [reflexivity |]. unfold getBoardMembers. simpl.
  now rewrite filter_out_then_in.
Qed.

(** [searchCompanyByOrgNumber] leaves the person rows as they are when
    the fetch brings no one. *)
Lemma search_zero_people_keeps_rows (cfg : MCPConfig)
    (args : SearchCompanyByOrgNumberInput) (st : State) (key : string)
    (c : CompanyData) (w : World) :
  OrgNumberSchema (in_org_number args) = Return key ->
  freshness cfg key (force_refresh args) (clock (world st)) (db st) = Fetch ->
  scrapeCompany cfg key (include_board args) (world st) = (Return (c, []), w) ->
  people (db (searchCompanyByOrgNumber cfg args st).2) = people (db st).
Proof.
  intros Hkey Hfetch Hscrape. unfold searchCompanyByOrgNumber.
  rewrite Hkey, Hfetch, Hscrape. simpl. now rewrite andb_false_r.
Qed.

(** [updateCompanyData] empties them. *)
Lemma update_zero_people_empties_rows (cfg : MCPConfig) (raw key : string)
    (st : State) (c : CompanyData) (w : World) :
  OrgNumberSchema raw = Return key ->
  scrapeCompany cfg key true (world st) = (Return (c, []), w) ->
  getBoardMembers key (db (updateCompanyData cfg raw st).2) = [].
Proof.
  intros Hkey Hscrape. unfold updateCompanyData. rewrite Hkey, Hscrape.
  unfold getBoardMembers. simpl. now rewrite filter_out_then_in.
Qed.

(** C5: the code at a failing input.  The cache holds one person row for
    the key; a forced fetch with people requested succeeds and brings no
    one.  [searchCompanyByOrgNumber] answers with an empty board, and the
    old row is still what [getBoardMembers] returns; on the same state
    [updateCompanyData], which saves the people whatever their number,
    leaves none. *)
Theorem zero_people_row_survives :
  exists response st,
    searchCompanyByOrgNumber DEFAULT_CONFIG refresh_with_board state_with_person =
      (Return response, st) /\
    cached response = false /\
    board_members response = Some [] /\
    p_name <$> getBoardMembers "556631-3788" (db state_with_person) =
      ["Anna Andersson"] /\
    p_name <$> getBoardMembers "556631-3788" (db st) = ["Anna Andersson"] /\
    getBoardMembers "556631-3788"
      (db (updateCompanyData DEFAULT_CONFIG "556631-3788" state_with_person).2) = [].
Proof.
  eexists _, _. split; [vm_compute; reflexivity |].
  repeat split; vm_compute; reflexivity.
Qed.

End ToolSamples.

(* ================================================================== *)
(** * Properties of the browser pool *)
(* ================================================================== *)

Section PoolFacts.

Import BrowserPool.

Lemma elem_of_contextsToRemove (now : Z) (p : Pool) (c : nat) :
  c ∈ contextsToRemove now p <->
  exists t, contextAge p !! c = Some t /\ (now - t > maxContextAgeMs)%Z.
Proof.
  unfold contextsToRemove. rewrite list_elem_of_fmap. split.
  - intros ([c' t] & -> & Hin).
    apply elem_of_map_to_list, map_lookup_filter_Some in Hin as [Hlookup Hold].
    exists t. split; assumption.
  - intros (t & Hlookup & Hold). exists (c, t). split; [reflexivity |].
    apply elem_of_map_to_list, map_lookup_filter_Some. split; assumption.
Qed.

(** What the second loop leaves, for any list of contexts to remove. *)
Lemma foldl_remove_context (l : list nat) (p : Pool) :
  browser (foldl remove_context p l) = browser p /\
  next_context (foldl remove_context p l) = next_context p /\
  created (foldl remove_context p l) = created p /\
  (forall c, c ∈ contexts (foldl remove_context p l) <->
             c ∈ contexts p /\ c ∉ l) /\
  length (contexts (foldl remove_context p l)) <= length (contexts p) /\
  (forall c, c ∈ l -> contextAge (foldl remove_context p l) !! c = None) /\
  (forall c, c ∉ l ->
             contextAge (foldl remove_context p l) !! c = contextAge p !! c) /\
  (forall c, c ∈ closed (foldl remove_context p l) <-> c ∈ closed p \/ c ∈ l).
Proof.
  revert p. induction l as [|a l IH]; intros p; simpl.
  - split_and!; try done.
    + intros c. rewrite elem_of_nil. tauto.
    + intros c Hin. now apply elem_of_nil in Hin.
    + intros c. rewrite elem_of_nil. tauto.
  - destruct (IH (remove_context p a))
      as (Hb & Hn & Hc & Hctx & Hlen & Hgone & Hkept & Hclosed).
    simpl in *. split_and!; try assumption.
    + intros c. rewrite Hctx, list_elem_of_filter, not_elem_of_cons. tauto.
    + etrans; [exact Hlen | apply length_filter].
    + intros c [-> | Hin]%elem_of_cons; [|now apply Hgone].
      destruct (decide (a ∈ l)) as [Hl | Hl]; [now apply Hgone |].
      rewrite Hkept by assumption. apply lookup_delete_eq.
    + intros c [Hne Hnot]%not_elem_of_cons. rewrite Hkept by assumption.
      apply lookup_delete_ne. congruence.
    + intros c. rewrite Hclosed, elem_of_union, elem_of_singleton, elem_of_cons.
      tauto.
Qed.

Lemma pool_inv_new : pool_inv new_pool.
Proof.
  unfold pool_inv, new_pool, maxContexts. simpl. split_and!.
  - lia.
  - intros c Hin. now apply elem_of_nil in Hin.
  - intros c Hin. now apply elem_of_empty in Hin.
  - intros c. rewrite lookup_empty. now intros [? ?].
  - intros c Hlt. lia.
Qed.

Lemma pool_inv_initialize (p : Pool) : pool_inv p -> pool_inv (initialize p).
Proof. unfold initialize. now destruct (browser p). Qed.


Lemma pool_inv_cleanup (now : Z) (p : Pool) :
  pool_inv p -> pool_inv (cleanupOldContexts now p).
Proof.
  intros (Hlen & Hctx & Hclosed & Hage & Hall). unfold cleanupOldContexts.
  fold (contextsToRemove now p).
  destruct (foldl_remove_context (contextsToRemove now p) p)
    as (Hb & Hn & Hc & Hctx' & Hlen' & Hgone & Hkept & Hclosed').
  set (p' := foldl remove_context p (contextsToRemove now p)) in *.
  unfold pool_inv. rewrite Hn. split_and!.
  - lia.
  - intros c [Hin Hnot]%Hctx'. destruct (Hctx c Hin) as (Hsome & Hlt & Hlive).
    split_and!; [now rewrite Hkept | assumption |].
    intros [Hcl | Hcl]%Hclosed'; contradiction.
  - intros c [Hcl | Hcl]%Hclosed'; [now apply Hclosed |].
    apply elem_of_contextsToRemove in Hcl as (t & Ht & _). apply Hage. eauto.
  - intros c Hsome. destruct (decide (c ∈ contextsToRemove now p)) as [Hin | Hnot].
    + rewrite Hgone in Hsome by assumption. now destruct Hsome.
    + rewrite Hkept in Hsome by assumption. now apply Hage.
  - intros c Hlt. rewrite Hctx', Hclosed'.
    destruct (decide (c ∈ contextsToRemove now p)) as [Hin | Hnot]; [auto |].
    destruct (Hall c Hlt) as [Hin | Hcl]; auto.
Qed.

Lemma pool_inv_acquire (now : Z) (p : Pool) :
  pool_inv p -> pool_inv (acquireContext now p).2.
Proof.
  intros Hinv. unfold acquireContext.
  assert (Hinit : pool_inv (if browser p then p else initialize p))
    by (destruct (browser p); [assumption | now apply pool_inv_initialize]).
  apply (pool_inv_cleanup now) in Hinit.
  set (q := cleanupOldContexts now _) in *.
  destruct (Nat.ltb_spec (length (contexts q)) maxContexts) as [Hlt | Hge];
    [|exact Hinit].
  destruct Hinit as (Hlen & Hctx & Hclosed & Hage & Hall).
  unfold pool_inv. simpl. split_and!.
  - rewrite length_app. simpl. lia.
  - intros c [Hin | ->%list_elem_of_singleton]%elem_of_app.
    + destruct (Hctx c Hin) as (Hsome & Hlt' & Hlive).
      split_and!; [|lia | assumption].
      rewrite lookup_insert_ne by lia. assumption.
    + split_and!; [rewrite lookup_insert_eq; eauto | lia |].
      intros Hcl%Hclosed. lia.
  - intros c Hcl%Hclosed. lia.
  - intros c Hsome. destruct (decide (c = next_context q)) as [-> | Hne]; [lia |].
    rewrite lookup_insert_ne in Hsome by congruence. apply Hage in Hsome. lia.
  - intros c Hmade. rewrite elem_of_app, list_elem_of_singleton.
    destruct (decide (c = next_context q)) as [-> | Hne]; [auto |].
    destruct (Hall c) as [Hin | Hcl]; [lia | auto | auto].
Qed.

Lemma pool_inv_release (context : nat) (now : Z) (p : Pool) :
  context < next_context p -> pool_inv p ->
  pool_inv (releaseContext context now p).
Proof.
  intros Hmade (Hlen & Hctx & Hclosed & Hage & Hall).
  unfold pool_inv. simpl. split_and!; try assumption.
  - intros c Hin. destruct (Hctx c Hin) as (Hsome & Hlt & Hlive).
    split_and!; try assumption.
    destruct (decide (c = context)) as [-> | Hne].
    + rewrite lookup_insert_eq. eauto.
    + now rewrite lookup_insert_ne by congruence.
  - intros c Hsome. destruct (decide (c = context)) as [-> | Hne]; [assumption |].
    rewrite lookup_insert_ne in Hsome by congruence. now apply Hage.
Qed.

Lemma pool_inv_closeAll (p : Pool) : pool_inv p -> pool_inv (closeAll p).
Proof.
  intros (Hlen & Hctx & Hclosed & Hage & Hall).
  unfold pool_inv, maxContexts. simpl. split_and!.
  - lia.
  - intros c Hin. now apply elem_of_nil in Hin.
  - intros c [Hcl | Hin%elem_of_list_to_set]%elem_of_union.
    + now apply Hclosed.
    + now apply Hctx.
  - intros c. rewrite lookup_empty. now intros [? ?].
  - intros c Hlt. right. rewrite elem_of_union, elem_of_list_to_set.
    destruct (Hall c Hlt); auto.
Qed.

Lemma reachable_inv (p : Pool) : reachable p -> pool_inv p.
Proof.
  induction 1.
  - apply pool_inv_new.
  - now apply pool_inv_initialize.
  - now apply pool_inv_acquire.
  - now apply pool_inv_release.
  - now apply pool_inv_initialize, pool_inv_closeAll.
  - now apply pool_inv_closeAll.
Qed.






Example unreleased_context_evicted :
  contexts (acquireContext 700000 pool_after_acquire).2 = [1] /\
  bool_decide (0 ∈ closed (acquireContext 700000 pool_after_acquire).2) = true.
Proof. split; vm_compute; reflexivity. Qed.

End PoolFacts.

(* ================================================================== *)
(** * Properties of the retry wrapper *)
(* ================================================================== *)

Section RetryFacts.

Import Retry.

Context {S A : Type}.
Variable operation : S -> Completion A * S.
Variable retryableErrors : list string.
Variable onRetry : nat -> JsError -> S -> S.
Variable backoff_wait : nat -> S -> S.

Local Abbreviation withRetry3 :=
  (withRetry operation 3 retryableErrors onRetry backoff_wait).

Lemma withRetry_first (s s1 : S) (value : A) :
  operation s = (Return value, s1) -> withRetry3 s = (Return value, s1).
Proof. intros H1. unfold withRetry. simpl. now rewrite H1. Qed.

Lemma withRetry_not_retryable (s s1 : S) (error : JsError) :
  operation s = (Throw error, s1) ->
  isRetryable retryableErrors error = false ->
  withRetry3 s = (Throw error, s1).
Proof. intros H1 Hr. unfold withRetry. simpl. now rewrite H1, Hr. Qed.

Lemma withRetry_second (s s1 : S) (error : JsError) :
  operation s = (Throw error, s1) ->
  isRetryable retryableErrors error = true ->
  forall s2 value,
    operation (before_retry onRetry backoff_wait 1 error s1) = (Return value, s2) ->
    withRetry3 s = (Return value, s2).
Proof.
  intros H1 Hr s2 value H2. unfold withRetry, before_retry in *. simpl.
  now rewrite H1, Hr, H2.
Qed.

Lemma withRetry_third (s s1 s2 : S) (e1 e2 : JsError) :
  operation s = (Throw e1, s1) ->
  isRetryable retryableErrors e1 = true ->
  operation (before_retry onRetry backoff_wait 1 e1 s1) = (Throw e2, s2) ->
  isRetryable retryableErrors e2 = true ->
  withRetry3 s = operation (before_retry onRetry backoff_wait 2 e2 s2).
Proof.
  intros H1 Hr1 H2 Hr2. unfold withRetry, before_retry in *. simpl.
  rewrite H1, Hr1. simpl. rewrite H2, Hr2. simpl.
  destruct (operation (backoff_wait 2 (onRetry 2 e2 s2))) as [[value|e3] s3];
    reflexivity.
Qed.

Lemma withRetry_second_throw (s s1 s2 : S) (e1 e2 : JsError) :
  operation s = (Throw e1, s1) ->
  isRetryable retryableErrors e1 = true ->
  operation (before_retry onRetry backoff_wait 1 e1 s1) = (Throw e2, s2) ->
  isRetryable retryableErrors e2 = false ->
  withRetry3 s = (Throw e2, s2).
Proof.
  intros H1 Hr1 H2 Hr2. unfold withRetry, before_retry in *. simpl.
  rewrite H1, Hr1. simpl. now rewrite H2, Hr2.
Qed.

Section Calls.

(** A count of the calls of the operation: each call adds one, and the
    callback and the wait add none. *)
Variable calls : S -> nat.
Hypothesis operation_counts : forall s, calls (operation s).2 = Datatypes.S (calls s).
Hypothesis onRetry_counts : forall n e s, calls (onRetry n e s) = calls s.
Hypothesis wait_counts : forall n s, calls (backoff_wait n s) = calls s.

Lemma retry_loop_calls (maxAttempts remaining attempt : nat)
    (lastError : option JsError) (s : S) :
  attempt + remaining = Datatypes.S maxAttempts ->
  1 <= remaining ->
  calls s + 1 <=
    calls (retry_loop operation maxAttempts retryableErrors onRetry backoff_wait
             remaining attempt lastError s).2 <= calls s + remaining /\
  (forall e,
     (retry_loop operation maxAttempts retryableErrors onRetry backoff_wait
        remaining attempt lastError s).1 = Throw e ->
     isRetryable retryableErrors e = true ->
     calls (retry_loop operation maxAttempts retryableErrors onRetry backoff_wait
              remaining attempt lastError s).2 = calls s + remaining).
Proof.
  revert attempt lastError s.
  induction remaining as [|remaining IH]; intros attempt lastError s Hsum Hpos;
    [lia |].
  cbn [retry_loop]. pose proof (operation_counts s) as Hop.
  destruct (operation s) as [[value|error] s1]; cbn [snd] in Hop.
  - cbn [fst snd]. split; [lia | discriminate].
  - destruct (Nat.eqb_spec attempt maxAttempts) as [Hlast | Hmore]; cbn [orb].
    + cbn [fst snd]. split; [lia |]. intros e _ _. lia.
    + destruct (isRetryable retryableErrors error) eqn:Hretry; cbn [negb].
      * destruct remaining as [|remaining']; [lia |].
        destruct (IH (Datatypes.S attempt) (Some error)
                    (backoff_wait attempt (onRetry attempt error s1)))
          as [Hbounds Hall]; [lia | lia |].
        rewrite wait_counts, onRetry_counts in Hbounds, Hall.
        split; [lia |]. intros e He Hre. rewrite (Hall e He Hre). lia.
      * cbn [fst snd]. split; [lia |]. intros e [= <-] Hre. congruence.
Qed.

(** X7.  [withRetry] calls the operation at least once and at most
    [maxAttempts] times; an error that is thrown although it is one of
    those retried means that all [maxAttempts] calls were made; and with
    [maxAttempts] at 0 the operation is not called at all. *)
Theorem withRetry_calls (maxAttempts : nat) (s : S) :
  (1 <= maxAttempts ->
     calls s + 1 <=
       calls (withRetry operation maxAttempts retryableErrors onRetry
                backoff_wait s).2 <= calls s + maxAttempts /\
     (forall e,
        (withRetry operation maxAttempts retryableErrors onRetry
           backoff_wait s).1 = Throw e ->
        isRetryable retryableErrors e = true ->
        calls (withRetry operation maxAttempts retryableErrors onRetry
                 backoff_wait s).2 = calls s + maxAttempts)) /\
  (maxAttempts = 0 ->
     withRetry operation maxAttempts retryableErrors onRetry backoff_wait s =
       (Throw undefined_error, s)).
Proof.
  split.
  - intros Hpos. unfold withRetry. apply retry_loop_calls; lia.
  - intros ->. reflexivity.
Qed.

End Calls.

End RetryFacts.

(* ================================================================== *)
(** * Properties of the scraper *)
(* ================================================================== *)

Section ScraperFacts.

Import Validators BrowserPool Retry Scraper.

(** [acquireContext] always hands out a context. *)
Lemma acquireContext_Some (now : Z) (p : Pool) :
  exists c, (acquireContext now p).1 = Some c.
Proof.
  unfold acquireContext.
  set (q := cleanupOldContexts now _).
  destruct (Nat.ltb_spec (length (contexts q)) maxContexts) as [Hlt | Hge];
    simpl; [eauto |].
  destruct (contexts q) as [|c rest]; simpl; [|eauto].
  unfold maxContexts in Hge. simpl in Hge. lia.
Qed.

Lemma doScrape_spec (cfg : MCPConfig) (key : string) (include_board : bool)
    (w : World) :
  (doScrape cfg key include_board w).1 =
    attempt_outcome cfg key include_board (site w (pages w)) (clock w) /\
  site (doScrape cfg key include_board w).2 = site w /\
  clock (doScrape cfg key include_board w).2 = clock w /\
  pages (doScrape cfg key include_board w).2 = Datatypes.S (pages w) /\
  attempts (doScrape cfg key include_board w).2 = Datatypes.S (attempts w) /\
  restarts (doScrape cfg key include_board w).2 = restarts w /\
  detail_scrapes (doScrape cfg key include_board w).2 =
    (detail_scrapes w +
     if opens_company_page key (site w (pages w)) then 1 else 0)%nat.
Proof.
  unfold doScrape, attempt_outcome, opens_company_page.
  destruct (acquireContext_Some (clock w) (pool w)) as [c Hc].
  destruct (acquireContext (clock w) (pool w)) as [context p].
  simpl in Hc. subst context. simpl.
  unfold attempts, restarts, detail_scrapes.
  destruct (searchCompany (site w (pages w)) key) as [[url|]|error]; simpl;
    try (split_and!; (reflexivity || lia)).
  destruct (isSearchLimitReached (site w (pages w))); simpl;
    try (split_and!; (reflexivity || lia)).
  destruct (scrapeCompanyPage (site w (pages w)) url key (clock w))
    as [company|error]; simpl;
    try (split_and!; (reflexivity || lia)).
  destruct (include_board && enable_person_details cfg); simpl;
    split_and!; (reflexivity || lia).
Qed.

Lemma before_retry_spec (n : nat) (error : JsError) (w : World) :
  site (before_retry onRetry backoff_wait n error w) = site w /\
  clock (before_retry onRetry backoff_wait n error w) = clock w /\
  pages (before_retry onRetry backoff_wait n error w) = pages w /\
  attempts (before_retry onRetry backoff_wait n error w) = attempts w /\
  detail_scrapes (before_retry onRetry backoff_wait n error w) = detail_scrapes w /\
  restarts (before_retry onRetry backoff_wait n error w) =
    (restarts w + if (2 <=? n)%nat then 1 else 0)%nat /\
  pool (before_retry onRetry backoff_wait n error w) =
    if (2 <=? n)%nat then restart (pool w) else pool w.
Proof.
  unfold before_retry, backoff_wait, onRetry, attempts, restarts, detail_scrapes.
  destruct (2 <=? n)%nat; simpl; split_and!; (reflexivity || lia).
Qed.

(** Every [ScraperError] is retried by name, whatever its [retryable]
    property says; a [NoSuchCompanyError] is not. *)
Lemma ScraperError_isRetryable (message : string) (retryable : bool) :
  isRetryable retryableErrors (ScraperError message retryable) = true.
Proof. reflexivity. Qed.

Lemma NoSuchCompanyError_not_retryable (key : string) :
  isRetryable retryableErrors (NoSuchCompanyError key) = false.
Proof. reflexivity. Qed.

End ScraperFacts.

Section FetchOutcomes.

Import Validators BrowserPool Retry Scraper.

Lemma searchCompany_flagged (s : Site) (key : string) (companyName : option string) :
  shows_flag s companyName ->
  searchCompany s key = Throw (ScraperError (warning_message companyName) false).
Proof.
  intros (Hgoto & Hres & c & a & Hcard & Hwarn & Hlink & <-).
  unfold searchCompany. now rewrite Hgoto, Hres, Hcard, Hwarn, Hlink.
Qed.

(** An attempt on a flagged card ends with the error of the flag and
    does not open the company page; the wrapper then retries it. *)
Lemma flagged_attempt (cfg : MCPConfig) (key : string) (include_board : bool)
    (w : World) (companyName : option string) :
  shows_flag (site w (pages w)) companyName ->
  (doScrape cfg key include_board w).1 =
    Throw (ScraperError (warning_message companyName) false) /\
  detail_scrapes (doScrape cfg key include_board w).2 = detail_scrapes w /\
  isRetryable retryableErrors (ScraperError (warning_message companyName) false)
    = true.
Proof.
  intros Hflag.
  destruct (doScrape_spec cfg key include_board w)
    as (Hout & _ & _ & _ & _ & _ & Hdetail).
  rewrite Hout, Hdetail. unfold attempt_outcome, opens_company_page.
  rewrite (searchCompany_flagged _ key _ Hflag).
  split_and!; [reflexivity | lia | reflexivity].
Qed.

(** A fetch of a company that every page shows flagged: three attempts,
    one restart of the pool, and the error of the flag at the end. *)
Lemma flagged_fetch_is_retried (cfg : MCPConfig) (raw key : string)
    (include_board : bool) (w : World) (companyName : option string) :
  normalizeOrgNumber raw = Return key ->
  (forall page, shows_flag (site w page) companyName) ->
  (scrapeCompany cfg raw include_board w).1 =
    Throw (ScraperError (warning_message companyName) false) /\
  attempts (scrapeCompany cfg raw include_board w).2 = (attempts w + 3)%nat /\
  restarts (scrapeCompany cfg raw include_board w).2 = (restarts w + 1)%nat /\
  detail_scrapes (scrapeCompany cfg raw include_board w).2 = detail_scrapes w.
Proof.
  intros Hkey Hflag.
  set (error := ScraperError (warning_message companyName) false).
  assert (Hretry : isRetryable retryableErrors error = true)
    by apply ScraperError_isRetryable.
  assert (Hstep : forall v : World, site v = site w ->
            exists v' : World,
              doScrape cfg key include_board v = (Throw error, v') /\
              site v' = site w /\
              attempts v' = Datatypes.S (attempts v) /\
              restarts v' = restarts v /\
              detail_scrapes v' = detail_scrapes v).
  { intros v Hsite.
    destruct (doScrape_spec cfg key include_board v)
      as (_ & Hs & _ & _ & Ha & Hr & _).
    destruct (flagged_attempt cfg key include_board v companyName)
      as (Hout & Hd & _); [rewrite Hsite; apply Hflag |].
    destruct (doScrape cfg key include_board v) as [out v'].
    cbn [fst snd] in Hs, Ha, Hr, Hout, Hd.
    exists v'. rewrite Hout. split_and!; first [reflexivity | congruence]. }
  destruct (Hstep w eq_refl) as (w1 & H1 & Hs1 & Ha1 & Hr1 & Hd1).
  destruct (before_retry_spec 1 error w1) as (Hbs1 & _ & _ & Hba1 & Hbd1 & Hbr1 & _).
  destruct (Hstep (before_retry onRetry backoff_wait 1 error w1))
    as (w2 & H2 & Hs2 & Ha2 & Hr2 & Hd2); [congruence |].
  destruct (before_retry_spec 2 error w2) as (Hbs2 & _ & _ & Hba2 & Hbd2 & Hbr2 & _).
  destruct (Hstep (before_retry onRetry backoff_wait 2 error w2))
    as (w3 & H3 & Hs3 & Ha3 & Hr3 & Hd3); [congruence |].
  assert (Hall : scrapeCompany cfg raw include_board w = (Throw error, w3)).
  { unfold scrapeCompany, maxAttempts. rewrite Hkey.
    rewrite (withRetry_third (doScrape cfg key include_board) retryableErrors
               onRetry backoff_wait w w1 w2 error error H1 Hretry H2 Hretry).
    exact H3. }
  rewrite Hall. cbn [fst snd Nat.leb] in *.
  split_and!; [reflexivity | lia | lia | lia].
Qed.

End FetchOutcomes.

Section FetchClaims.

Import Validators BrowserPool Retry Scraper.

(** C3: the code at a failing input.  Every page shows the company
    flagged.  The fetch ends with the error of the flag, which carries
    the reason and [retryable = false], and the company page is never
    opened; but the wrapper, which goes by the name of the error alone,
    makes three attempts and restarts the pool once where the claim has
    one attempt. *)
Theorem flagged_fetch_makes_three_attempts :
  exists w,
    scrapeCompany DEFAULT_CONFIG "5566313788" true (sample_world flagged_site 2000) =
      (Throw (ScraperError "Company Varnad AB has warning remarks" false), w) /\
    err_retryable (ScraperError "Company Varnad AB has warning remarks" false) =
      Some false /\
    detail_scrapes w = 0 /\
    attempts w = 3 /\
    restarts w = 1.
Proof.
  eexists. split; [vm_compute; reflexivity |]. repeat split.
Qed.




(** C6, as stated, fails.  The first attempt meets a timeout, which is
    retried; the second succeeds.  The fetch returns the data of the
    second attempt, and the pool was not restarted at all. *)
Lemma second_attempt_without_restart :
  exists w1 result w2,
    doScrape DEFAULT_CONFIG "556631-3788" true flaky_world = (Throw TimeoutError, w1) /\
    isRetryable retryableErrors TimeoutError = true /\
    scrapeCompany DEFAULT_CONFIG "556631-3788" true flaky_world = (Return result, w2) /\
    name result.1 = "Nya AB" /\
    attempts w2 = 2 /\
    restarts w2 = 0.
Proof.
  eexists _, _, _. split; [vm_compute; reflexivity |].
  split; [reflexivity |]. split; [vm_compute; reflexivity |].
  repeat split.
Qed.

(** C6, amended.  When the first attempt of a fetch fails with an error
    the wrapper retries: if the second attempt succeeds, the fetch
    returns the data of the second attempt after two attempts, and the
    pool is not restarted; the pool is restarted, once, only when the
    second attempt fails with an error that is retried too, before the
    third and last attempt, whose outcome is then that of the fetch. *)
Theorem second_attempt_succeeds_without_restart (cfg : MCPConfig)
    (raw key : string) (include_board : bool) (w w1 : World) (error : JsError) :
  normalizeOrgNumber raw = Return key ->
  doScrape cfg key include_board w = (Throw error, w1) ->
  isRetryable retryableErrors error = true ->
  (forall result w2,
     doScrape cfg key include_board (before_retry onRetry backoff_wait 1 error w1) =
       (Return result, w2) ->
     scrapeCompany cfg raw include_board w = (Return result, w2) /\
     attempts w2 = (attempts w + 2)%nat /\
     restarts w2 = restarts w) /\
  (forall error2 w2,
     doScrape cfg key include_board (before_retry onRetry backoff_wait 1 error w1) =
       (Throw error2, w2) ->
     isRetryable retryableErrors error2 = true ->
     scrapeCompany cfg raw include_board w =
       doScrape cfg key include_board (before_retry onRetry backoff_wait 2 error2 w2) /\
     attempts (scrapeCompany cfg raw include_board w).2 = (attempts w + 3)%nat /\
     restarts (scrapeCompany cfg raw include_board w).2 = (restarts w + 1)%nat).
Proof.
  intros Hkey H1 Hr1.
  assert (Hw1 : attempts w1 = Datatypes.S (attempts w) /\ restarts w1 = restarts w).
  { destruct (doScrape_spec cfg key include_board w) as (_ & _ & _ & _ & Ha & Hr & _).
    rewrite H1 in Ha, Hr. auto. }
  destruct Hw1 as [Ha1 Hr1'].
  destruct (before_retry_spec 1 error w1) as (_ & _ & _ & Hba1 & _ & Hbr1 & _).
  set (v1 := before_retry onRetry backoff_wait 1 error w1) in *.
  destruct (doScrape_spec cfg key include_board v1) as (_ & _ & _ & _ & Ha2 & Hr2 & _).
  unfold scrapeCompany, maxAttempts. rewrite Hkey. split.
  - intros result w2 H2. rewrite H2 in Ha2, Hr2. simpl in Ha2, Hr2, Hbr1.
    split_and!; [|lia | lia].
    now apply (withRetry_second (doScrape cfg key include_board) retryableErrors
                 onRetry backoff_wait w w1 error H1 Hr1).
  - intros error2 w2 H2 Hr2'. rewrite H2 in Ha2, Hr2. simpl in Ha2, Hr2, Hbr1.
    destruct (before_retry_spec 2 error2 w2) as (_ & _ & _ & Hba2 & _ & Hbr2 & _).
    rewrite (withRetry_third (doScrape cfg key include_board) retryableErrors
               onRetry backoff_wait w w1 w2 error error2 H1 Hr1 H2 Hr2').
    set (v2 := before_retry onRetry backoff_wait 2 error2 w2) in *.
    destruct (doScrape_spec cfg key include_board v2) as (_ & _ & _ & _ & Ha3 & Hr3 & _).
    simpl in Hbr2. split_and!; [reflexivity | lia | lia].
Qed.

(** The theorem at the world of the counterexample. *)
Lemma second_attempt_succeeds_without_restart_witness :
  exists w2,
    (scrapeCompany DEFAULT_CONFIG "556631-3788" true flaky_world).2 = w2 /\
    attempts w2 = (attempts flaky_world + 2)%nat /\
    restarts w2 = restarts flaky_world.
Proof.
  destruct (second_attempt_succeeds_without_restart DEFAULT_CONFIG
              "556631-3788" "556631-3788" true flaky_world
              (doScrape DEFAULT_CONFIG "556631-3788" true flaky_world).2
              TimeoutError) as [Hsecond _].
  - vm_compute. reflexivity.
  - vm_compute. reflexivity.
  - reflexivity.
  - edestruct Hsecond as (Hfetch & Ha & Hr).
    + vm_compute. reflexivity.
    + eexists. rewrite Hfetch. simpl. split; [reflexivity |]. split; assumption.
Defined.

End FetchClaims.

(* ================================================================== *)
(** * Properties of the token bucket *)
(* ================================================================== *)

Section LimiterFacts.

Import RateLimiter.

Local Open Scope Q_scope.

Lemma Qgeb_true (a b : Q) : Qgeb a b = true <-> b <= a.
Proof. unfold Qgeb. apply Qle_bool_iff. Qed.

Lemma Qgeb_false (a b : Q) : Qgeb a b = false <-> a < b.
Proof.
  unfold Qgeb. split.
  - intros H. apply Qnot_le_lt. intros Hle%Qle_bool_iff. congruence.
  - intros Hlt. destruct (Qle_bool b a) eqn:Hle; [|reflexivity].
    apply Qle_bool_iff in Hle. lra.
Qed.

Lemma getBucket_stored (identifier : string) (now : Z) (l : Limiter) :
  buckets (getBucket identifier now l).2 !! identifier =
    Some (getBucket identifier now l).1 /\
  (forall other, other <> identifier ->
     buckets (getBucket identifier now l).2 !! other = buckets l !! other) /\
  maxRequests (getBucket identifier now l).2 = maxRequests l /\
  windowMs (getBucket identifier now l).2 = windowMs l.
Proof.
  unfold getBucket.
  destruct (buckets l !! identifier) as [b|] eqn:Hb; simpl.
  - auto.
  - rewrite lookup_insert_eq. split_and!; try reflexivity.
    intros other Hne. now rewrite lookup_insert_ne.
Qed.

Lemma elapsed_nonneg (b : TokenBucket) (now : Z) :
  (lastRefill b <= now)%Z -> 0 <= inject_Z (now - lastRefill b).
Proof.
  intros H. change 0 with (inject_Z 0). rewrite <- Zle_Qle. lia.
Qed.

(** A refill keeps a bucket within its bounds and never takes tokens
    away, as long as the clock has not gone back. *)
Lemma refill_ok (b : TokenBucket) (now : Z) :
  bucket_ok b -> 0 <= refillRate b -> (lastRefill b <= now)%Z ->
  bucket_ok (refillBucket b now) /\ tokens b <= refilled b now.
Proof.
  intros [H0 Hmax] Hrate Hclock. unfold bucket_ok, refilled. simpl.
  pose proof (elapsed_nonneg b now Hclock) as He.
  assert (Hadd : 0 <= inject_Z (now - lastRefill b) * refillRate b)
    by now apply Qmult_le_0_compat.
  destruct (Q.min_spec (maxTokens b)
              (tokens b + inject_Z (now - lastRefill b) * refillRate b))
    as [[Hlt Hmin] | [Hle Hmin]]; rewrite Hmin; split_and!; lra.
Qed.

(** X1.  [checkLimit] on a bucket within its bounds, with a clock that has
    not gone back (and a limiter whose window is positive, so that the
    rate of a new bucket is a quotient of numbers): it answers yes
    exactly when the refilled bucket holds a whole token, takes exactly
    one token then and none otherwise, and leaves the bucket within its
    bounds, stamped with the time of the call; no other bucket changes. *)
Theorem checkLimit_keeps_bounds (identifier : string) (now : Z) (l : Limiter) :
  0 < windowMs l ->
  bucket_ok (getBucket identifier now l).1 ->
  0 <= refillRate (getBucket identifier now l).1 ->
  (lastRefill (getBucket identifier now l).1 <= now)%Z ->
  exists b,
    buckets (checkLimit identifier now l).2 !! identifier = Some b /\
    bucket_ok b /\ lastRefill b = now /\
    ((checkLimit identifier now l).1 = true <->
       1 <= refilled (getBucket identifier now l).1 now) /\
    tokens b ==
      refilled (getBucket identifier now l).1 now -
      (if (checkLimit identifier now l).1 then 1 else 0) /\
    (forall other, other <> identifier ->
       buckets (checkLimit identifier now l).2 !! other = buckets l !! other).
Proof.
  intros _ Hok Hrate Hclock.
  destruct (getBucket_stored identifier now l) as (_ & Hother & _ & _).
  destruct (refill_ok _ now Hok Hrate Hclock) as [[Hr0 Hrmax] _].
  unfold checkLimit, refilled in *.
  destruct (getBucket identifier now l) as [b0 l0]. cbn [fst snd] in *.
  set (b1 := refillBucket b0 now) in *.
  destruct (Qgeb (tokens b1) 1) eqn:Hge; cbn [fst snd store buckets].
  - apply Qgeb_true in Hge. eexists. rewrite lookup_insert_eq.
    split; [reflexivity |]. unfold bucket_ok in *. cbn [consume tokens maxTokens lastRefill].
    change (maxTokens b1) with (maxTokens b0) in *.
    split_and!; try reflexivity; try lra;
      try (split; [intros _; assumption | reflexivity]).
    intros other' Hne. rewrite lookup_insert_ne by congruence. now apply Hother.
  - apply Qgeb_false in Hge. eexists. rewrite lookup_insert_eq.
    split; [reflexivity |]. unfold bucket_ok in *.
    change (maxTokens b1) with (maxTokens b0) in *.
    split_and!; try reflexivity; try lra;
      try (split; [discriminate | lra]).
    intros other' Hne. rewrite lookup_insert_ne by congruence. now apply Hother.
Qed.

(** The theorem at a new limiter of 10 requests a minute. *)
Lemma checkLimit_keeps_bounds_witness :
  exists b,
    buckets (checkLimit "merinfo_scraper" 0 (new_limiter 10 60000)).2
      !! "merinfo_scraper" = Some b /\
    bucket_ok b /\ lastRefill b = 0%Z /\
    ((checkLimit "merinfo_scraper" 0 (new_limiter 10 60000)).1 = true <->
       1 <= refilled (getBucket "merinfo_scraper" 0 (new_limiter 10 60000)).1 0) /\
    tokens b ==
      refilled (getBucket "merinfo_scraper" 0 (new_limiter 10 60000)).1 0 -
      (if (checkLimit "merinfo_scraper" 0 (new_limiter 10 60000)).1 then 1 else 0) /\
    (forall other, other <> "merinfo_scraper" ->
       buckets (checkLimit "merinfo_scraper" 0 (new_limiter 10 60000)).2 !! other =
       buckets (new_limiter 10 60000) !! other).
Proof.
  apply (checkLimit_keeps_bounds "merinfo_scraper" 0 (new_limiter 10 60000)).
  - reflexivity.
  - split; vm_compute; congruence.
  - vm_compute. congruence.
  - vm_compute. congruence.
Defined.



(** What is left in the bucket of [identifier] at [now]: [m] whole
    tokens, within the capacity, stamped [now]. *)
Lemma check_with_tokens_left (identifier : string) (now : Z) (l : Limiter)
    (m : nat) :
  tokens (getBucket identifier now l).1 == inject_Z (Z.of_nat m) ->
  tokens (getBucket identifier now l).1 <= maxTokens (getBucket identifier now l).1 ->
  lastRefill (getBucket identifier now l).1 = now ->
  (checkLimit identifier now l).1 = negb (m =? 0)%nat /\
  tokens (getBucket identifier now (checkLimit identifier now l).2).1 ==
    inject_Z (Z.of_nat (pred m)) /\
  tokens (getBucket identifier now (checkLimit identifier now l).2).1 <=
    maxTokens (getBucket identifier now (checkLimit identifier now l).2).1 /\
  lastRefill (getBucket identifier now (checkLimit identifier now l).2).1 = now.
Proof.
  intros Htok Hmax Hlast. unfold checkLimit.
  destruct (getBucket identifier now l) as [b0 l0]. cbn [fst snd] in *.
  assert (Hrefill : tokens (refillBucket b0 now) == inject_Z (Z.of_nat m)).
  { unfold refillBucket. cbn [tokens]. rewrite Hlast, Z.sub_diag.
    destruct (Q.min_spec (maxTokens b0) (tokens b0 + inject_Z 0 * refillRate b0))
      as [[Hlt Hmin] | [Hle Hmin]]; rewrite Hmin; [|rewrite <- Htok; ring].
    assert (tokens b0 + inject_Z 0 * refillRate b0 == tokens b0) by ring. lra. }
  set (b1 := refillBucket b0 now) in *.
  assert (Hm : inject_Z (Z.of_nat (pred m)) ==
               inject_Z (Z.of_nat m) - (if (m =? 0)%nat then 0 else 1)).
  { destruct m as [|m]; [reflexivity |].
    cbn [pred Nat.eqb]. rewrite Nat2Z.inj_succ. unfold Z.succ.
    rewrite inject_Z_plus. ring. }
  destruct (Qgeb (tokens b1) 1) eqn:Hge; cbn [fst snd];
    unfold getBucket, store; cbn [buckets]; rewrite lookup_insert_eq;
    cbn [fst consume tokens maxTokens lastRefill];
    change (maxTokens b1) with (maxTokens b0);
    change (lastRefill b1) with now.
  - apply Qgeb_true in Hge. rewrite Hrefill in Hge.
    destruct m as [|m]; [vm_compute in Hge; congruence |].
    split_and!; [reflexivity | | | reflexivity].
    + rewrite Hm, Hrefill. cbn [Nat.eqb]. ring.
    + lra.
  - apply Qgeb_false in Hge. rewrite Hrefill in Hge.
    destruct m as [|m].
    + split_and!; [reflexivity | | | reflexivity]; [rewrite Hrefill; reflexivity | lra].
    + exfalso. rewrite Nat2Z.inj_succ in Hge. unfold Z.succ in Hge.
      rewrite inject_Z_plus in Hge.
      assert (0 <= inject_Z (Z.of_nat m))
        by (change 0 with (inject_Z 0); rewrite <- Zle_Qle; lia).
      change (inject_Z 1) with 1 in Hge. lra.
Qed.

Lemma checks_with_tokens_left (identifier : string) (now : Z) (m : nat) :
  forall l : Limiter,
  tokens (getBucket identifier now l).1 == inject_Z (Z.of_nat m) ->
  tokens (getBucket identifier now l).1 <= maxTokens (getBucket identifier now l).1 ->
  lastRefill (getBucket identifier now l).1 = now ->
  (checks m identifier now l).1 = repeat true m /\
  (checkLimit identifier now (checks m identifier now l).2).1 = false.
Proof.
  induction m as [|m IH]; intros l Htok Hmax Hlast.
  - split; [reflexivity |]. cbn [checks snd].
    now destruct (check_with_tokens_left identifier now l 0 Htok Hmax Hlast)
      as (-> & _).
  - destruct (check_with_tokens_left identifier now l (S m) Htok Hmax Hlast)
      as (Hans & Htok' & Hmax' & Hlast').
    cbn [checks]. destruct (checkLimit identifier now l) as [answer l1].
    cbn [fst snd pred Nat.eqb negb] in *. subst answer.
    destruct (IH l1 Htok' Hmax' Hlast') as [Hall Hlast1].
    destruct (checks m identifier now l1) as [answers l2].
    cbn [fst snd repeat] in *. now rewrite Hall.
Qed.

(** X3.  A new limiter of capacity [n] (and a positive window) grants
    exactly [n] calls made at the same instant and refuses the next
    one. *)
Theorem burst_of_capacity (n : nat) (window : Q) (identifier : string) (now : Z) :
  0 < window ->
  (checks n identifier now (new_limiter (inject_Z (Z.of_nat n)) window)).1 =
    repeat true n /\
  (checkLimit identifier now
     (checks n identifier now (new_limiter (inject_Z (Z.of_nat n)) window)).2).1 =
    false.
Proof.
  intros _.
  apply checks_with_tokens_left; unfold getBucket, new_limiter; cbn;
    rewrite lookup_empty; cbn; (reflexivity || lra).
Qed.

(** The theorem at the limiter of the scraper: 10 requests a minute. *)
Lemma burst_of_capacity_witness :
  (checks 10 "merinfo_scraper" 0 (new_limiter (inject_Z (Z.of_nat 10)) 60000)).1 =
    repeat true 10 /\
  (checkLimit "merinfo_scraper" 0
     (checks 10 "merinfo_scraper" 0
        (new_limiter (inject_Z (Z.of_nat 10)) 60000)).2).1 = false.
Proof.
  apply (burst_of_capacity 10 60000 "merinfo_scraper" 0). reflexivity.
Defined.




(** A second refill at the same instant changes no answer: the bucket
    holds a whole token after it exactly when it did before. *)
Lemma refill_again (b : TokenBucket) (now : Z) :
  Qgeb (tokens (refillBucket (refillBucket b now) now)) 1 =
  Qgeb (tokens (refillBucket b now)) 1.
Proof.
  set (b1 := refillBucket b now).
  assert (Hmax : tokens b1 <= maxTokens b1)
    by (unfold b1, refillBucket; cbn [tokens maxTokens]; apply Q.le_min_l).
  assert (Hsame : tokens (refillBucket b1 now) == tokens b1).
  { unfold refillBucket at 1. cbn [tokens].
    replace (lastRefill b1) with now by reflexivity. rewrite Z.sub_diag.
    destruct (Q.min_spec (maxTokens b1) (tokens b1 + inject_Z 0 * refillRate b1))
      as [[Hlt Hmin] | [Hle Hmin]]; rewrite Hmin.
    - assert (E : tokens b1 + inject_Z 0 * refillRate b1 == tokens b1) by ring.
      lra.
    - ring. }
  destruct (Qgeb (tokens b1) 1) eqn:Hge.
  - apply Qgeb_true. apply Qgeb_true in Hge. lra.
  - apply Qgeb_false. apply Qgeb_false in Hge. lra.
Qed.

(** X5.  [getStatus] tells what [checkLimit] would answer at the same
    instant and takes no token: it reports at least one request
    remaining exactly when [checkLimit] would grant the call, then with
    a reset time that is the time of the call; and a [checkLimit] made
    right after [getStatus] answers as it would have without it. *)
Theorem getStatus_predicts_checkLimit (identifier : string) (now : Z)
    (l : Limiter) :
  0 < windowMs l ->
  ((1 <= (getStatus identifier now l).1.1)%Z <->
     (checkLimit identifier now l).1 = true) /\
  ((checkLimit identifier now l).1 = true ->
     (getStatus identifier now l).1.2 = now) /\
  (checkLimit identifier now (getStatus identifier now l).2).1 =
    (checkLimit identifier now l).1.
Proof.
  intros _. unfold getStatus, checkLimit.
  destruct (getBucket identifier now l) as [b0 l0].
  set (b1 := refillBucket b0 now).
  assert (Hstored : getBucket identifier now (store identifier b1 l0) =
                    (b1, store identifier b1 l0)).
  { unfold getBucket, store. cbn [buckets]. now rewrite lookup_insert_eq. }
  cbn [fst snd]. rewrite Hstored.
  assert (Hanswer : forall (x y : Limiter) (t : Q),
            (if Qgeb t 1 then (true, x) else (false, y)).1 = Qgeb t 1)
    by (intros x y t; now destruct (Qgeb t 1)).
  rewrite !Hanswer. split_and!.
  - split.
    + intros Hfloor. apply Qgeb_true.
      pose proof (Qfloor_le (tokens b1)) as Hle.
      assert (Hone : inject_Z 1 <= inject_Z (Qfloor (tokens b1)))
        by now rewrite <- Zle_Qle.
      change (inject_Z 1) with 1 in Hone. lra.
    + intros Hge%Qgeb_true.
      apply Qfloor_resp_le in Hge. exact Hge.
  - intros Hge. unfold getWaitTime. rewrite Hge. lia.
  - apply refill_again.
Qed.

(** The theorem at a new limiter of 10 requests a minute. *)
Lemma getStatus_predicts_checkLimit_witness :
  ((1 <= (getStatus "merinfo_scraper" 0 (new_limiter 10 60000)).1.1)%Z <->
     (checkLimit "merinfo_scraper" 0 (new_limiter 10 60000)).1 = true) /\
  ((checkLimit "merinfo_scraper" 0 (new_limiter 10 60000)).1 = true ->
     (getStatus "merinfo_scraper" 0 (new_limiter 10 60000)).1.2 = 0%Z) /\
  (checkLimit "merinfo_scraper" 0
     (getStatus "merinfo_scraper" 0 (new_limiter 10 60000)).2).1 =
    (checkLimit "merinfo_scraper" 0 (new_limiter 10 60000)).1.
Proof.
  apply (getStatus_predicts_checkLimit "merinfo_scraper" 0
           (new_limiter 10 60000)).
  reflexivity.
Defined.

End LimiterFacts.

(* ================================================================== *)
(** * Further properties of a fetch *)
(* ================================================================== *)

Section FetchFacts.

Import Validators BrowserPool Retry Scraper.

(** The theorem on the calls of [withRetry], at the attempts of a fetch. *)
Lemma withRetry_calls_witness :
  (1 <= 3 ->
     attempts flaky_world + 1 <=
       attempts (withRetry (doScrape DEFAULT_CONFIG "556631-3788" true) 3
                   retryableErrors onRetry backoff_wait flaky_world).2
       <= attempts flaky_world + 3 /\
     (forall e,
        (withRetry (doScrape DEFAULT_CONFIG "556631-3788" true) 3
           retryableErrors onRetry backoff_wait flaky_world).1 = Throw e ->
        isRetryable retryableErrors e = true ->
        attempts (withRetry (doScrape DEFAULT_CONFIG "556631-3788" true) 3
                    retryableErrors onRetry backoff_wait flaky_world).2 =
          attempts flaky_world + 3)) /\
  (3 = 0 ->
     withRetry (doScrape DEFAULT_CONFIG "556631-3788" true) 3
       retryableErrors onRetry backoff_wait flaky_world =
       (Throw undefined_error, flaky_world)).
Proof.
  apply (withRetry_calls (doScrape DEFAULT_CONFIG "556631-3788" true)
           retryableErrors onRetry backoff_wait attempts).
  - intros s. apply doScrape_spec.
  - intros n e s. apply before_retry_spec.
  - intros n s. reflexivity.
Defined.

(** The attempt whose outcome is the outcome of the fetch starts in a
    world that differs from the first by [k] failed attempts, with [k]
    at most 2, and by one restart of the pool when [k] is 2. *)
Lemma scrapeCompany_last_attempt (cfg : MCPConfig) (raw key : string)
    (include_board : bool) (w : World) :
  normalizeOrgNumber raw = Return key ->
  exists (k : nat) (v : World),
    scrapeCompany cfg raw include_board w = doScrape cfg key include_board v /\
    k <= 2 /\
    (k = 0 -> v = w) /\
    (1 <= k -> exists e, (doScrape cfg key include_board w).1 = Throw e /\
                         isRetryable retryableErrors e = true) /\
    clock v = clock w /\ site v = site w /\
    pages v = pages w + k /\
    attempts v = attempts w + k /\
    restarts v = restarts w + (if (2 <=? k)%nat then 1 else 0) /\
    detail_scrapes w <= detail_scrapes v <= detail_scrapes w + k.
Proof.
  intros Hkey. unfold scrapeCompany, maxAttempts. rewrite Hkey.
  set (op := doScrape cfg key include_board).
  destruct (doScrape_spec cfg key include_board w)
    as (_ & Hs1 & Hc1 & Hp1 & Ha1 & Hr1 & Hd1).
  fold op in Hs1, Hc1, Hp1, Ha1, Hr1, Hd1.
  destruct (op w) as [[value|e1] w1] eqn:H1.
  { exists 0, w. fold op. rewrite H1.
    rewrite (withRetry_first op retryableErrors onRetry backoff_wait w w1 value H1).
    split_and!; try reflexivity; try lia; try (intros; cbn [Nat.leb]; lia). }
  destruct (isRetryable retryableErrors e1) eqn:Hre1.
  2:{ exists 0, w. fold op. rewrite H1.
      split_and!; try reflexivity; try lia; try (intros; cbn [Nat.leb]; lia).
      now apply (withRetry_not_retryable op retryableErrors onRetry backoff_wait
                   w w1 e1). }
  cbn [snd] in *.
  destruct (before_retry_spec 1 e1 w1) as (Hbs1 & Hbc1 & Hbp1 & Hba1 & Hbd1 & Hbr1 & _).
  set (v1 := before_retry onRetry backoff_wait 1 e1 w1) in *.
  destruct (doScrape_spec cfg key include_board v1)
    as (_ & Hs2 & Hc2 & Hp2 & Ha2 & Hr2 & Hd2).
  fold op in Hs2, Hc2, Hp2, Ha2, Hr2, Hd2.
  assert (Hd1' : detail_scrapes w <= detail_scrapes w1 <= detail_scrapes w + 1)
    by (rewrite Hd1;
        match goal with |- context [if ?b then _ else _] => destruct b end; lia).
  cbn [Nat.leb] in Hbr1.
  destruct (op v1) as [[value|e2] w2] eqn:H2.
  { exists 1, v1. fold op. rewrite H2.
    rewrite (withRetry_second op retryableErrors onRetry backoff_wait
               w w1 e1 H1 Hre1 w2 value H2).
    split_and!; try reflexivity; try (cbn [Nat.leb]; lia); try congruence.
    intros _. exists e1. auto. }
  destruct (isRetryable retryableErrors e2) eqn:Hre2.
  2:{ exists 1, v1. fold op. rewrite H2.
      rewrite (withRetry_second_throw op retryableErrors onRetry backoff_wait
                 w w1 w2 e1 e2 H1 Hre1 H2 Hre2).
      split_and!; try reflexivity; try (cbn [Nat.leb]; lia); try congruence.
      intros _. exists e1. auto. }
  cbn [snd] in *.
  destruct (before_retry_spec 2 e2 w2) as (Hbs2 & Hbc2 & Hbp2 & Hba2 & Hbd2 & Hbr2 & _).
  set (v2 := before_retry onRetry backoff_wait 2 e2 w2) in *.
  assert (Hd2' : detail_scrapes v1 <= detail_scrapes w2 <= detail_scrapes v1 + 1)
    by (rewrite Hd2;
        match goal with |- context [if ?b then _ else _] => destruct b end; lia).
  cbn [Nat.leb] in Hbr2.
  exists 2, v2. fold op.
  rewrite (withRetry_third op retryableErrors onRetry backoff_wait
             w w1 w2 e1 e2 H1 Hre1 H2 Hre2).
  fold v2. split_and!; try reflexivity; try (cbn [Nat.leb]; lia); try congruence.
  intros _. exists e1. auto.
Qed.


(** X8.  A fetch under a key that cannot be normalised throws before any
    attempt and leaves the world as it was.  Under a valid key it makes
    between one and three attempts, each on a page of its own, opens the
    company page at most once per attempt, and restarts the pool once
    exactly when it makes the third attempt. *)
Theorem fetch_effort (cfg : MCPConfig) (raw : string) (include_board : bool)
    (w : World) :
  match normalizeOrgNumber raw with
  | Throw error => scrapeCompany cfg raw include_board w = (Throw error, w)
  | Return key =>
      exists n : nat,
        1 <= n <= 3 /\
        attempts (scrapeCompany cfg raw include_board w).2 = attempts w + n /\
        pages (scrapeCompany cfg raw include_board w).2 = pages w + n /\
        detail_scrapes (scrapeCompany cfg raw include_board w).2
          <= detail_scrapes w + n /\
        restarts (scrapeCompany cfg raw include_board w).2 =
          restarts w + (if (3 <=? n)%nat then 1 else 0) /\
        site (scrapeCompany cfg raw include_board w).2 = site w
  end.
Proof.
  destruct (normalizeOrgNumber raw) as [key|error] eqn:Hkey.
  2:{ unfold scrapeCompany. now rewrite Hkey. }
  destruct (scrapeCompany_last_attempt cfg raw key include_board w Hkey)
    as (k & v & Hlast & Hk & _ & _ & _ & Hs & Hp & Ha & Hr & Hd).
  destruct (doScrape_spec cfg key include_board v)
    as (_ & Hs' & _ & Hp' & Ha' & Hr' & Hd').
  rewrite Hlast. exists (Datatypes.S k).
  assert (Hopen : detail_scrapes (doScrape cfg key include_board v).2
                    <= detail_scrapes v + 1)
    by (rewrite Hd';
        match goal with |- context [if ?b then _ else _] => destruct b end; lia).
  assert (Hleb : (3 <=? Datatypes.S k)%nat = (2 <=? k)%nat) by reflexivity.
  rewrite Hleb.
  split_and!; try lia; congruence.
Qed.

(** X9.  A fetch whose first search finds no card of the company is reported
    not found after that one attempt: the error is not retried, the
    company page is not opened and the pool is not restarted. *)
Theorem not_found_is_final (cfg : MCPConfig) (raw key : string)
    (include_board : bool) (w : World) :
  normalizeOrgNumber raw = Return key ->
  searchCompany (site w (pages w)) key = Return None ->
  (scrapeCompany cfg raw include_board w).1 = Throw (NoSuchCompanyError key) /\
  attempts (scrapeCompany cfg raw include_board w).2 = attempts w + 1 /\
  restarts (scrapeCompany cfg raw include_board w).2 = restarts w /\
  detail_scrapes (scrapeCompany cfg raw include_board w).2 = detail_scrapes w.
Proof.
  intros Hkey Hsearch.
  destruct (scrapeCompany_last_attempt cfg raw key include_board w Hkey)
    as (k & v & Hlast & Hk & Hzero & Hfailed & _).
  destruct (doScrape_spec cfg key include_board w)
    as (Hout & _ & _ & _ & Ha & Hr & Hd).
  assert (Hfirst : (doScrape cfg key include_board w).1 =
                   Throw (NoSuchCompanyError key)).
  { rewrite Hout. unfold attempt_outcome. now rewrite Hsearch. }
  assert (k = 0) as ->.
  { destruct k as [|k]; [reflexivity |]. exfalso.
    destruct Hfailed as (e & He & Hretry); [lia |].
    rewrite Hfirst in He. injection He as <-.
    rewrite NoSuchCompanyError_not_retryable in Hretry. discriminate. }
  rewrite Hlast, (Hzero eq_refl).
  unfold opens_company_page in Hd. rewrite Hsearch in Hd.
  split_and!; [exact Hfirst | lia | exact Hr | lia].
Qed.

(** The theorem on the page of the search limit, which shows no card. *)
Lemma not_found_is_final_witness :
  (scrapeCompany DEFAULT_CONFIG "5566313788" true (sample_world limit_site 2000)).1
    = Throw (NoSuchCompanyError "556631-3788") /\
  attempts (scrapeCompany DEFAULT_CONFIG "5566313788" true
              (sample_world limit_site 2000)).2 =
    attempts (sample_world limit_site 2000) + 1 /\
  restarts (scrapeCompany DEFAULT_CONFIG "5566313788" true
              (sample_world limit_site 2000)).2 =
    restarts (sample_world limit_site 2000) /\
  detail_scrapes (scrapeCompany DEFAULT_CONFIG "5566313788" true
                    (sample_world limit_site 2000)).2 =
    detail_scrapes (sample_world limit_site 2000).
Proof.
  apply (not_found_is_final DEFAULT_CONFIG "5566313788" "556631-3788" true
           (sample_world limit_site 2000)); reflexivity.
Defined.

(** What the search hands on is an absolute URL. *)
Lemma searchCompany_absolute (s : Site) (key url : string) :
  searchCompany s key = Return (Some url) -> String.prefix "http" url = true.
Proof.
  unfold searchCompany. intros H.
  destruct (search_goto s); [discriminate |].
  destruct (negb (results_rendered s)); [discriminate |].
  destruct (card s) as [c|]; [|discriminate].
  destruct (hasWarning c).
  { destruct (link c); discriminate. }
  destruct (link c) as [a|]; [|discriminate].
  destruct (href a) as [h|]; [|discriminate].
  destruct (negb (truthy_str h)); [discriminate |].
  destruct (String.prefix "http" h) eqn:Hprefix; injection H as <-;
    [exact Hprefix | reflexivity].
Qed.

(** What a successful attempt returns. *)
Lemma attempt_outcome_Return (cfg : MCPConfig) (key : string)
    (include_board : bool) (s : Site) (now : Z)
    (company : CompanyData) (members : list PersonDetails) :
  attempt_outcome cfg key include_board s now = Return (company, members) ->
  org_number company = key /\
  String.prefix "http" (source_url company) = true /\
  Forall (fun m => p_org_number m = key) members /\
  (include_board && enable_person_details cfg = false -> members = []) /\
  opens_company_page key s = true.
Proof.
  unfold attempt_outcome, opens_company_page. intros H.
  destruct (searchCompany s key) as [[url|]|error] eqn:Hsearch; try discriminate.
  destruct (isSearchLimitReached s); [discriminate |].
  unfold scrapeCompanyPage in H.
  destruct (company_page s) as [c|error]; [|discriminate].
  injection H as <- <-. cbn [org_number source_url].
  split_and!; [reflexivity | exact (searchCompany_absolute s key url Hsearch)
              | | | reflexivity].
  - destruct (include_board && enable_person_details cfg); [|constructor].
    unfold scrapeBoardMembers. apply Forall_map, Forall_true. reflexivity.
  - now intros ->.
Qed.

(** X10.  A fetch that succeeds returns the company under the normalised key
    of the request, with an absolute source URL, and people of that key
    only -- none at all unless the board was asked for and person
    details are enabled; its last attempt opened the company page. *)
Theorem fetch_success_provenance (cfg : MCPConfig) (raw : string)
    (include_board : bool) (w : World)
    (company : CompanyData) (members : list PersonDetails) :
  (scrapeCompany cfg raw include_board w).1 = Return (company, members) ->
  exists key,
    normalizeOrgNumber raw = Return key /\
    org_number company = key /\
    String.prefix "http" (source_url company) = true /\
    Forall (fun m => p_org_number m = key) members /\
    (include_board && enable_person_details cfg = false -> members = []) /\
    detail_scrapes w < detail_scrapes (scrapeCompany cfg raw include_board w).2.
Proof.
  intros Hreturn.
  destruct (normalizeOrgNumber raw) as [key|error] eqn:Hkey.
  2:{ unfold scrapeCompany in Hreturn. rewrite Hkey in Hreturn. discriminate. }
  exists key. split; [reflexivity |].
  destruct (scrapeCompany_last_attempt cfg raw key include_board w Hkey)
    as (k & v & Hlast & _ & Hzero & _ & _ & _ & _ & _ & _ & Hd).
  destruct (doScrape_spec cfg key include_board v)
    as (Hout & _ & _ & _ & _ & _ & Hd').
  rewrite Hlast in Hreturn |- *. rewrite Hout in Hreturn.
  destruct (attempt_outcome_Return _ _ _ _ _ _ _ Hreturn)
    as (Horg & Hurl & Hmembers & Hnone & Hopen).
  rewrite Hopen in Hd'.
  split_and!; try assumption. lia.
Qed.

(** The theorem at a fetch whose first page meets a timeout and whose
    second page shows the company. *)
Lemma fetch_success_provenance_witness :
  exists company members,
    (scrapeCompany DEFAULT_CONFIG "5566313788" true flaky_world).1 =
      Return (company, members) /\
    exists key,
      normalizeOrgNumber "5566313788" = Return key /\
      org_number company = key /\
      String.prefix "http" (source_url company) = true /\
      Forall (fun m => p_org_number m = key) members /\
      (true && enable_person_details DEFAULT_CONFIG = false -> members = []) /\
      detail_scrapes flaky_world <
        detail_scrapes (scrapeCompany DEFAULT_CONFIG "5566313788" true flaky_world).2.
Proof.
  assert (H : exists company members,
            (scrapeCompany DEFAULT_CONFIG "5566313788" true flaky_world).1 =
              Return (company, members))
    by (vm_compute; do 2 eexists; reflexivity).
  destruct H as (company & members & H).
  exists company, members. split; [exact H |].
  exact (fetch_success_provenance DEFAULT_CONFIG "5566313788" true flaky_world
           company members H).
Defined.


(** The outcome of a fetch is the outcome of one of its attempts: of
    the attempt on the first, second or third page it opens. *)
Lemma scrapeCompany_outcome (cfg : MCPConfig) (raw key : string)
    (include_board : bool) (w : World) :
  normalizeOrgNumber raw = Return key ->
  exists k, k <= 2 /\
    (scrapeCompany cfg raw include_board w).1 =
      attempt_outcome cfg key include_board (site w (pages w + k)) (clock w).
Proof.
  intros Hkey.
  destruct (scrapeCompany_last_attempt cfg raw key include_board w Hkey)
    as (k & v & Hlast & Hk & _ & _ & Hc & Hs & Hp & _).
  destruct (doScrape_spec cfg key include_board v) as (Hout & _).
  exists k. split; [assumption |]. now rewrite Hlast, Hout, Hs, Hp, Hc.
Qed.

End FetchFacts.

(* ================================================================== *)
(** * Further properties of the cache *)
(* ================================================================== *)

Section CacheFacts.

Import Validators Database BrowserPool Retry Scraper Tools.

Lemma filter_none {A} (P : A -> Prop) `{!forall x, base.Decision (P x)} (l : list A) :
  (forall x, x ∈ l -> ~ P x) -> filter P l = [].
Proof.
  induction l as [|a l IH]; intros Hnone; [reflexivity |].
  rewrite filter_cons_False by (apply Hnone; left).
  apply IH. intros x Hx. apply Hnone. now right.
Qed.

Lemma lookup_clearCache (older_than_days now : Z) (db : Db) (key : string) :
  companies (clearCache older_than_days now db).2 !! key =
  match companies db !! key with
  | Some row => if expired older_than_days now row then None else Some row
  | None => None
  end.
Proof.
  unfold clearCache. cbn [snd companies].
  destruct (companies db !! key) as [row|] eqn:Hrow.
  - destruct (expired older_than_days now row) eqn:Hexp.
    + apply map_lookup_filter_None. right. intros x Hx. cbn [snd].
      rewrite Hrow in Hx. injection Hx as <-. congruence.
    + apply map_lookup_filter_Some. split; [assumption |]. exact Hexp.
  - apply map_lookup_filter_None. now left.
Qed.

(** X13.  [clearCache] and [isCacheStale] draw the same line: at one reading
    of the clock, a company is still in the cache after
    [clearCache(d)] exactly when it was there and [isCacheStale] at
    threshold [d] says no, and then with the record and the people it
    had; the people of a company that is deleted go with it; and the
    number returned is the number of companies that are gone. *)
Theorem clearCache_removes_stale_only (older_than_days now : Z) (db : Db)
    (key : string) :
  getCompany key (clearCache older_than_days now db).2 =
    (if isCacheStale key older_than_days now db then None
     else getCompany key db) /\
  (isCacheStale key older_than_days now db = false ->
   getBoardMembers key (clearCache older_than_days now db).2 =
     getBoardMembers key db) /\
  (is_Some (getCompany key db) ->
   isCacheStale key older_than_days now db = true ->
   getBoardMembers key (clearCache older_than_days now db).2 = []) /\
  ((clearCache older_than_days now db).1 +
     size (companies (clearCache older_than_days now db).2) =
   size (companies db))%nat.
Proof.
  split_and!.
  - unfold getCompany, isCacheStale. rewrite lookup_clearCache.
    destruct (companies db !! key) as [row|]; [|reflexivity].
    unfold expired. now destruct (Qgtb _ _).
  - unfold isCacheStale, getBoardMembers. intros Hfresh.
    destruct (companies db !! key) as [row|] eqn:Hrow; [|discriminate].
    f_equal. unfold clearCache. cbn [snd people].
    apply list_filter_filter_l. intros person Hkey.
    unfold cascaded. rewrite Hkey, Hrow. exact Hfresh.
  - unfold getCompany, isCacheStale, getBoardMembers. intros Hsome Hstale.
    destruct (companies db !! key) as [row|] eqn:Hrow;
      [|now destruct Hsome].
    unfold clearCache. cbn [snd people].
    rewrite list_filter_filter, filter_none; [reflexivity |].
    intros person _ [Hkey Hkept]. unfold cascaded in Hkept.
    rewrite Hkey, Hrow in Hkept. unfold expired in Hkept. congruence.
  - unfold clearCache. cbn [fst snd companies].
    pose proof (map_size_filter
                  (fun entry : string * CompanyRow =>
                     expired older_than_days now entry.2 = false)
                  (companies db)). lia.
Qed.

Lemma elem_of_insert_rows (row : PersonRow) (id : nat)
    (members : list PersonDetails) (now : Z) :
  row ∈ insert_rows id members now ->
  exists member, member ∈ members /\ pr_org_number row = p_org_number member.
Proof.
  revert id. induction members as [|m members IH]; intros id Hrow; simpl in Hrow.
  - now apply elem_of_nil in Hrow.
  - apply elem_of_cons in Hrow as [-> | Hrow].
    + exists m. split; [left | reflexivity].
    + destruct (IH _ Hrow) as (member & Hin & Horg).
      exists member. split; [now right | assumption].
Qed.

Lemma foreign_keys_empty : foreign_keys empty_db.
Proof. intros row Hrow. now apply elem_of_nil in Hrow. Qed.

Lemma foreign_keys_saveCompany (company : CompanyData) (now : Z) (db : Db) :
  foreign_keys db -> foreign_keys (saveCompany company now db).
Proof.
  intros Hfk row Hrow. unfold saveCompany in *. cbn [people companies] in *.
  apply lookup_insert_is_Some.
  destruct (decide (r_org_number (bound_row company now) = pr_org_number row));
    [now left | right]. split; [assumption |]. now apply Hfk.
Qed.

Lemma foreign_keys_saveBoardMembers (key : string)
    (members : list PersonDetails) (now : Z) (db : Db) :
  foreign_keys db -> foreign_keys (saveBoardMembers key members now db).2.
Proof.
  intros Hfk. unfold saveBoardMembers.
  assert (Hdeleted : forall row,
            row ∈ filter (fun row => pr_org_number row ≠ key) (people db) ->
            is_Some (companies db !! pr_org_number row)).
  { intros row [_ Hrow]%list_elem_of_filter. now apply Hfk. }
  destruct (length members =? 0)%nat; [exact Hdeleted |].
  destruct (forallb _ members) eqn:Hall; [|exact Hdeleted].
  intros row Hrow. cbn [snd people companies] in *.
  apply elem_of_app in Hrow as [Hrow | Hrow]; [now apply Hdeleted |].
  apply elem_of_insert_rows in Hrow as (member & Hin & ->).
  rewrite forallb_forall in Hall.
  apply list_elem_of_In in Hin. apply Hall in Hin.
  unfold foreign_key_ok in Hin. cbn [companies] in Hin.
  now apply bool_decide_eq_true in Hin.
Qed.

Lemma foreign_keys_clearCache (older_than_days now : Z) (db : Db) :
  foreign_keys db -> foreign_keys (clearCache older_than_days now db).2.
Proof.
  intros Hfk row Hrow. rewrite lookup_clearCache.
  unfold clearCache in Hrow. cbn [snd people] in Hrow.
  apply list_elem_of_filter in Hrow as [Hkept Hrow].
  unfold cascaded in Hkept.
  destruct (Hfk row Hrow) as [company Hcompany].
  rewrite Hcompany in Hkept |- *. rewrite Hkept. eauto.
Qed.

(** X14.  No write to the cache leaves a person row without the company row
    it refers to: not a save of a company, not a save of board members
    (whether it succeeds or fails on the foreign key), not a clean-up. *)
Theorem foreign_keys_kept (db : Db) :
  foreign_keys db ->
  (forall company now, foreign_keys (saveCompany company now db)) /\
  (forall key members now,
     foreign_keys (saveBoardMembers key members now db).2) /\
  (forall older_than_days now,
     foreign_keys (clearCache older_than_days now db).2).
Proof.
  intros Hfk. split_and!.
  - intros company now. now apply foreign_keys_saveCompany.
  - intros key members now. now apply foreign_keys_saveBoardMembers.
  - intros older_than_days now. now apply foreign_keys_clearCache.
Qed.

(** The theorem at a cache that holds the sample company and one person
    of its board. *)
Lemma foreign_keys_kept_witness :
  (forall company now,
     foreign_keys (saveCompany company now (db state_with_person))) /\
  (forall key members now,
     foreign_keys (saveBoardMembers key members now (db state_with_person)).2) /\
  (forall older_than_days now,
     foreign_keys (clearCache older_than_days now (db state_with_person)).2).
Proof.
  apply (foreign_keys_kept (db state_with_person)).
  apply foreign_keys_saveBoardMembers, foreign_keys_saveCompany,
    foreign_keys_empty.
Defined.

Lemma insert_rows_stored (now : Z) (id : nat) (members : list PersonDetails) :
  map rowToPerson (insert_rows id members now) =
  zip_with (stored_person now) (seq id (length members)) members.
Proof.
  revert id. induction members as [|m members IH]; intros id; [reflexivity |].
  simpl. now rewrite IH.
Qed.

Lemma insert_rows_key (key : string) (now : Z) (id : nat)
    (members : list PersonDetails) :
  Forall (fun m => p_org_number m = key) members ->
  Forall (fun row => pr_org_number row = key) (insert_rows id members now).
Proof.
  intros Hall. revert id.
  induction Hall as [|m members Hm _ IH]; intros id; simpl; constructor; auto.
Qed.

Lemma filter_all {A} (P : A -> Prop) `{!forall x, base.Decision (P x)}
    (l : list A) :
  Forall P l -> filter P l = l.
Proof.
  induction 1 as [|a l Ha _ IH]; [reflexivity |].
  rewrite filter_cons_True by assumption. now rewrite IH.
Qed.

(** A save of board members whose company is in the cache succeeds: the
    rows of the key are replaced by rows of the people given. *)
Lemma saveBoardMembers_ok (key : string) (members : list PersonDetails)
    (now : Z) (d : Db) :
  is_Some (companies d !! key) ->
  Forall (fun m => p_org_number m = key) members ->
  (saveBoardMembers key members now d).1 = Return tt /\
  companies (saveBoardMembers key members now d).2 = companies d /\
  people (saveBoardMembers key members now d).2 =
    filter (fun row => pr_org_number row ≠ key) (people d) ++
    insert_rows (next_person_id d) members now.
Proof.
  intros Hcompany Hkeys. unfold saveBoardMembers.
  destruct members as [|m members].
  { cbn [length Nat.eqb fst snd people companies insert_rows].
    now rewrite app_nil_r. }
  set (people' := m :: members) in *.
  assert (Hfk : forallb (foreign_key_ok
                  {| companies := companies d;
                     people := filter (fun row => pr_org_number row ≠ key)
                                 (people d);
                     next_person_id := next_person_id d |}) people' = true).
  { apply forallb_forall. intros member Hin%list_elem_of_In.
    rewrite Forall_forall in Hkeys. unfold foreign_key_ok. cbn [companies].
    apply bool_decide_eq_true. now rewrite (Hkeys member Hin). }
  change (length people' =? 0)%nat with false. cbn match. rewrite Hfk.
  cbn [fst snd people companies next_person_id]. auto.
Qed.

Lemma board_after_insert (key : string) (members : list PersonDetails)
    (now : Z) (id : nat) (rows : list PersonRow) :
  Forall (fun m => p_org_number m = key) members ->
  map rowToPerson
    (filter (fun row => pr_org_number row = key)
       (filter (fun row => pr_org_number row ≠ key) rows ++
        insert_rows id members now)) =
  zip_with (stored_person now) (seq id (length members)) members.
Proof.
  intros Hkeys.
  rewrite filter_app, filter_out_then_in, app_nil_l.
  rewrite filter_all by now apply insert_rows_key.
  apply insert_rows_stored.
Qed.

(** X15.  What a save of board members stores, it gives back: when the
    company is in the cache and the people carry its key, the save
    succeeds and [getBoardMembers] then returns exactly these people, in
    the order given, with new consecutive ids, whatever was stored under
    the key before; the people of every other company and all company
    rows are as they were. *)
Theorem saveBoardMembers_round_trip (key : string)
    (members : list PersonDetails) (now : Z) (db : Db) :
  is_Some (companies db !! key) ->
  Forall (fun m => p_org_number m = key) members ->
  (saveBoardMembers key members now db).1 = Return tt /\
  getBoardMembers key (saveBoardMembers key members now db).2 =
    zip_with (stored_person now)
      (seq (next_person_id db) (length members)) members /\
  (forall other, other <> key ->
     getBoardMembers other (saveBoardMembers key members now db).2 =
     getBoardMembers other db) /\
  companies (saveBoardMembers key members now db).2 = companies db.
Proof.
  intros Hcompany Hkeys.
  destruct (saveBoardMembers_ok key members now db Hcompany Hkeys)
    as (Hreturn & Hcompanies & Hpeople).
  split_and!; [exact Hreturn | | | exact Hcompanies].
  - unfold getBoardMembers. rewrite Hpeople.
    now apply board_after_insert.
  - intros other Hne. unfold getBoardMembers. rewrite Hpeople. f_equal.
    rewrite filter_app.
    rewrite (list_filter_filter_l (fun row => pr_org_number row = other))
      by congruence.
    rewrite (filter_none (fun row => pr_org_number row = other)
               (insert_rows _ _ _)); [now rewrite app_nil_r |].
    intros row Hrow Heq.
    pose proof (insert_rows_key key now (next_person_id db) members Hkeys)
      as Hrows.
    rewrite Forall_forall in Hrows. specialize (Hrows row Hrow). congruence.
Qed.

(** The theorem at the cache that holds the sample company and one
    person, with a board of two. *)
Lemma saveBoardMembers_round_trip_witness :
  (saveBoardMembers "556631-3788"
     [sample_person "556631-3788" "Bo Berg";
      sample_person "556631-3788" "Cia Carlsson"] 3000
     (db state_with_person)).1 = Return tt /\
  getBoardMembers "556631-3788"
    (saveBoardMembers "556631-3788"
       [sample_person "556631-3788" "Bo Berg";
        sample_person "556631-3788" "Cia Carlsson"] 3000
       (db state_with_person)).2 =
    zip_with (stored_person 3000)
      (seq (next_person_id (db state_with_person)) 2)
      [sample_person "556631-3788" "Bo Berg";
       sample_person "556631-3788" "Cia Carlsson"] /\
  (forall other, other <> "556631-3788" ->
     getBoardMembers other
       (saveBoardMembers "556631-3788"
          [sample_person "556631-3788" "Bo Berg";
           sample_person "556631-3788" "Cia Carlsson"] 3000
          (db state_with_person)).2 =
     getBoardMembers other (db state_with_person)) /\
  companies
    (saveBoardMembers "556631-3788"
       [sample_person "556631-3788" "Bo Berg";
        sample_person "556631-3788" "Cia Carlsson"] 3000
       (db state_with_person)).2 = companies (db state_with_person).
Proof.
  apply (saveBoardMembers_round_trip "556631-3788"
           [sample_person "556631-3788" "Bo Berg";
            sample_person "556631-3788" "Cia Carlsson"] 3000
           (db state_with_person)).
  - vm_compute. eauto.
  - repeat constructor.
Defined.

(** X16.  A save of board members of which one refers to a company that is
    not in the cache fails on the foreign key and inserts no one; the
    rows stored under the key before are gone all the same, since the
    DELETE is not part of the transaction that is rolled back. *)
Theorem saveBoardMembers_missing_company (key : string)
    (members : list PersonDetails) (now : Z) (db : Db) :
  Exists (fun m => companies db !! p_org_number m = None) members ->
  (saveBoardMembers key members now db).1 =
    Throw (SqliteError "FOREIGN KEY constraint failed") /\
  getBoardMembers key (saveBoardMembers key members now db).2 = [] /\
  people (saveBoardMembers key members now db).2 =
    filter (fun row => pr_org_number row ≠ key) (people db) /\
  next_person_id (saveBoardMembers key members now db).2 = next_person_id db /\
  companies (saveBoardMembers key members now db).2 = companies db.
Proof.
  intros Hmissing. unfold saveBoardMembers, getBoardMembers.
  destruct members as [|m members]; [now apply Exists_nil in Hmissing |].
  set (people' := m :: members) in *.
  change (length people' =? 0)%nat with false. cbn match.
  destruct (forallb _ people') eqn:Hall.
  { exfalso. rewrite forallb_forall in Hall.
    apply Exists_exists in Hmissing as (member & Hin & Hnone).
    apply list_elem_of_In in Hin. apply Hall in Hin.
    unfold foreign_key_ok in Hin. cbn [companies] in Hin.
    apply bool_decide_eq_true in Hin. rewrite Hnone in Hin.
    now destruct Hin. }
  cbn [fst snd people companies next_person_id].
  split_and!; try reflexivity. now rewrite filter_out_then_in.
Qed.

(** The theorem at a save under a key of which the cache holds no
    company. *)
Lemma saveBoardMembers_missing_company_witness :
  (saveBoardMembers "556677-8899" [sample_person "556677-8899" "Dan Dahl"] 3000
     (db state_with_person)).1 =
    Throw (SqliteError "FOREIGN KEY constraint failed") /\
  getBoardMembers "556677-8899"
    (saveBoardMembers "556677-8899" [sample_person "556677-8899" "Dan Dahl"]
       3000 (db state_with_person)).2 = [] /\
  people
    (saveBoardMembers "556677-8899" [sample_person "556677-8899" "Dan Dahl"]
       3000 (db state_with_person)).2 =
    filter (fun row => pr_org_number row ≠ "556677-8899")
      (people (db state_with_person)) /\
  next_person_id
    (saveBoardMembers "556677-8899" [sample_person "556677-8899" "Dan Dahl"]
       3000 (db state_with_person)).2 = next_person_id (db state_with_person) /\
  companies
    (saveBoardMembers "556677-8899" [sample_person "556677-8899" "Dan Dahl"]
       3000 (db state_with_person)).2 = companies (db state_with_person).
Proof.
  apply (saveBoardMembers_missing_company "556677-8899"
           [sample_person "556677-8899" "Dan Dahl"] 3000 (db state_with_person)).
  apply Exists_cons_hd. vm_compute. reflexivity.
Defined.

Lemma schema_output_normal (val key : string) :
  OrgNumberSchema val = Return key -> normalizeOrgNumber key = Return key.
Proof.
  intros (a & b & Hparts & _ & ->)%OrgNumberSchema_Return.
  now apply canonical_fixed.
Qed.

Lemma scrapeCompany_Return (cfg : MCPConfig) (key : string)
    (include_board : bool) (w w' : World)
    (company : CompanyData) (members : list PersonDetails) :
  normalizeOrgNumber key = Return key ->
  scrapeCompany cfg key include_board w = (Return (company, members), w') ->
  org_number company = key /\ Forall (fun m => p_org_number m = key) members.
Proof.
  intros Hkey Hscrape.
  destruct (scrapeCompany_outcome cfg key key include_board w Hkey)
    as (k & _ & Hout).
  rewrite Hscrape in Hout. cbn [fst] in Hout. symmetry in Hout.
  destruct (attempt_outcome_Return _ _ _ _ _ _ _ Hout) as (Horg & _ & Hall & _).
  now split.
Qed.

Lemma foreign_key_missing (d : Db) (members : list PersonDetails) :
  Exists (fun m => companies d !! p_org_number m = None) members ->
  forallb (foreign_key_ok d) members = false.
Proof.
  intros Hmissing. destruct (forallb _ members) eqn:Hall; [|reflexivity].
  exfalso. rewrite forallb_forall in Hall.
  apply Exists_exists in Hmissing as (member & Hin & Hnone).
  apply list_elem_of_In in Hin. apply Hall in Hin.
  unfold foreign_key_ok in Hin.
  apply bool_decide_eq_true in Hin. rewrite Hnone in Hin. now destruct Hin.
Qed.

(** X17.  The tool [getBoardMembers] on a company that is not in the cache:
    when the fetch succeeds and brings at least one person, the tool
    fails on the foreign key, because it saves the people without
    saving the company; the fetch has been made, and the cache holds
    neither the company nor its people afterwards. *)
Theorem board_of_uncached_company_is_lost (cfg : MCPConfig) (arg key : string)
    (force : bool) (st : State) (w : World)
    (company : CompanyData) (members : list PersonDetails) :
  OrgNumberSchema arg = Return key ->
  getCompany key (db st) = None ->
  scrapeCompany cfg key true (world st) = (Return (company, members), w) ->
  members <> [] ->
  (getBoardMembers_tool cfg arg force st).1 =
    Throw (SqliteError "FOREIGN KEY constraint failed") /\
  world (getBoardMembers_tool cfg arg force st).2 = w /\
  getCompany key (db (getBoardMembers_tool cfg arg force st).2) = None /\
  getBoardMembers key (db (getBoardMembers_tool cfg arg force st).2) = [].
Proof.
  intros Hschema Hnone Hscrape Hmembers.
  destruct (scrapeCompany_Return cfg key true (world st) w company members
              (schema_output_normal _ _ Hschema) Hscrape) as (_ & Hkeys).
  assert (Hrow : companies (db st) !! key = None).
  { unfold getCompany in Hnone. now destruct (companies (db st) !! key). }
  unfold getBoardMembers_tool. rewrite Hschema, Hnone, Hscrape.
  replace (force || negb (bool_decide (is_Some (@None CompanyData)))) with true
    by now destruct force.
  unfold saveBoardMembers.
  destruct members as [|m members]; [contradiction |].
  set (people' := m :: members) in *.
  change (length people' =? 0)%nat with false. cbn match.
  rewrite foreign_key_missing.
  2:{ apply Exists_cons_hd. cbn [companies].
      apply Forall_cons in Hkeys as [-> _]. exact Hrow. }
  cbn [fst snd db world]. unfold getCompany, getBoardMembers.
  cbn [companies people]. rewrite Hrow, filter_out_then_in.
  split_and!; reflexivity.
Qed.

(** The theorem at an empty cache, in front of a site that shows the
    company and one person of its board. *)
Lemma board_of_uncached_company_is_lost_witness :
  exists w,
    (scrapeCompany DEFAULT_CONFIG "556631-3788" true (world state_uncached)).2 = w /\
    (getBoardMembers_tool DEFAULT_CONFIG "5566313788" false state_uncached).1 =
      Throw (SqliteError "FOREIGN KEY constraint failed") /\
    world (getBoardMembers_tool DEFAULT_CONFIG "5566313788" false state_uncached).2
      = w /\
    getCompany "556631-3788"
      (db (getBoardMembers_tool DEFAULT_CONFIG "5566313788" false state_uncached).2)
      = None /\
    getBoardMembers "556631-3788"
      (db (getBoardMembers_tool DEFAULT_CONFIG "5566313788" false state_uncached).2)
      = [].
Proof.
  assert (H : exists company member w,
            scrapeCompany DEFAULT_CONFIG "556631-3788" true (world state_uncached) =
              (Return (company, [member]), w))
    by (vm_compute; do 3 eexists; reflexivity).
  destruct H as (company & member & w & H).
  exists w. split; [now rewrite H |].
  apply (board_of_uncached_company_is_lost DEFAULT_CONFIG "5566313788"
           "556631-3788" false state_uncached w company [member]);
    [reflexivity | reflexivity | exact H | discriminate].
Defined.




Lemma age_days_mono (now later scraped_at : Z) (threshold : Q) :
  (now <= later)%Z ->
  Qgtb (age_days now scraped_at) threshold = true ->
  Qgtb (age_days later scraped_at) threshold = true.
Proof.
  intros Hle H. apply Qgtb_true in H. apply Qgtb_true.
  eapply Qlt_le_trans; [exact H |].
  unfold age_days, Qle. cbn. nia.
Qed.

Lemma saveBoardMembers_companies (key : string) (members : list PersonDetails)
    (now : Z) (d : Db) :
  companies (saveBoardMembers key members now d).2 = companies d.
Proof.
  unfold saveBoardMembers.
  destruct (length members =? 0)%nat; [reflexivity |].
  now destruct (forallb _ members).
Qed.

(** X20.  A fetch does not make a stale record fresh.  When a search finds a
    record of the key that is stale and fetches and saves the company
    again, the record keeps its old fetch timestamp: it is stale at
    every later moment too, and every later search without
    [force_refresh] fetches again. *)
Theorem refresh_keeps_entry_stale (cfg : MCPConfig)
    (args : SearchCompanyByOrgNumberInput) (st st' : State) (key : string)
    (response : Response) (later : Z) :
  OrgNumberSchema (in_org_number args) = Return key ->
  is_Some (companies (db st) !! key) ->
  isCacheStale key (cache_stale_days cfg) (clock (world st)) (db st) = true ->
  searchCompanyByOrgNumber cfg args st = (Return response, st') ->
  (clock (world st) <= later)%Z ->
  cached response = false /\
  is_Some (getCompany key (db st')) /\
  isCacheStale key (cache_stale_days cfg) later (db st') = true /\
  freshness cfg key false later (db st') = Fetch.
Proof.
  intros Hschema [old Hold] Hstale Hsearch Hlater.
  unfold searchCompanyByOrgNumber in Hsearch. rewrite Hschema in Hsearch.
  assert (Hfetch : freshness cfg key (force_refresh args) (clock (world st))
                     (db st) = Fetch).
  { rewrite (freshness_hit cfg key _ _ _ old Hold).
    unfold isCacheStale in Hstale. rewrite Hold in Hstale. rewrite Hstale.
    now rewrite andb_false_r. }
  rewrite Hfetch in Hsearch.
  destruct (scrapeCompany cfg key (include_board args) (world st))
    as [[[company members]|error] w] eqn:Hscrape; [|discriminate].
  destruct (scrapeCompany_Return cfg key (include_board args) (world st) w
              company members (schema_output_normal _ _ Hschema) Hscrape)
    as (Horg & _).
  assert (Hrow : companies (db st') !! key =
                 Some (do_update old (bound_row company (clock (world st))))).
  { assert (Hsaved : companies (saveCompany company (clock (world st)) (db st))
                       !! key =
                     Some (do_update old (bound_row company (clock (world st))))).
    { rewrite <- Horg, saveCompany_lookup. unfold saved_row.
      now rewrite Horg, Hold. }
    destruct (include_board args && (0 <? length members)%nat).
    - pose proof (saveBoardMembers_companies key members (clock (world st))
                    (saveCompany company (clock (world st)) (db st))) as Hsame.
      destruct (saveBoardMembers key members (clock (world st)) _)
        as [[[]|error] d]; [|discriminate].
      injection Hsearch as _ <-. cbn [db snd] in *. now rewrite Hsame.
    - injection Hsearch as _ <-. exact Hsaved. }
  assert (Hcached : cached response = false).
  { destruct (include_board args && (0 <? length members)%nat).
    - destruct (saveBoardMembers key members (clock (world st)) _)
        as [[[]|error] d]; [|discriminate].
      now injection Hsearch as <- _.
    - now injection Hsearch as <- _. }
  assert (Hstale' : isCacheStale key (cache_stale_days cfg) later (db st') = true).
  { unfold isCacheStale in Hstale |- *. rewrite Hold in Hstale. rewrite Hrow.
    cbn [r_scraped_at do_update].
    exact (age_days_mono _ _ _ _ Hlater Hstale). }
  split_and!; [exact Hcached | | exact Hstale' |].
  - unfold getCompany. rewrite Hrow. eauto.
  - rewrite (freshness_hit cfg key false later (db st') _ Hrow).
    unfold isCacheStale in Hstale'. rewrite Hrow in Hstale'.
    now rewrite Hstale'.
Qed.

(** The theorem at a cache whose record is eight days old, for a later
    moment one second after the search. *)
Lemma refresh_keeps_entry_stale_witness :
  exists response st',
    searchCompanyByOrgNumber DEFAULT_CONFIG plain_search state_stale =
      (Return response, st') /\
    cached response = false /\
    is_Some (getCompany "556631-3788" (db st')) /\
    isCacheStale "556631-3788" (cache_stale_days DEFAULT_CONFIG)
      (clock (world state_stale) + 1000) (db st') = true /\
    freshness DEFAULT_CONFIG "556631-3788" false
      (clock (world state_stale) + 1000) (db st') = Fetch.
Proof.
  assert (H : exists response st',
            searchCompanyByOrgNumber DEFAULT_CONFIG plain_search state_stale =
              (Return response, st'))
    by (vm_compute; do 2 eexists; reflexivity).
  destruct H as (response & st' & H).
  exists response, st'. split; [exact H |].
  apply (refresh_keeps_entry_stale DEFAULT_CONFIG plain_search state_stale st'
           "556631-3788" response (clock (world state_stale) + 1000));
    [reflexivity | vm_compute; eauto | reflexivity | exact H | cbn; lia].
Defined.




End CacheFacts.

(* ================================================================== *)
(** * Further properties of the browser pool *)
(* ================================================================== *)

Section PoolReuse.

Import BrowserPool.

Lemma cleanup_nothing (now : Z) (p : Pool) :
  (forall c t, contextAge p !! c = Some t -> (now - t <= maxContextAgeMs)%Z) ->
  cleanupOldContexts now p = p.
Proof.
  intros Hyoung. unfold cleanupOldContexts.
  assert (Hnone : filter (too_old now) (contextAge p) = ∅).
  { apply map_eq. intros c. rewrite lookup_empty.
    apply map_lookup_filter_None.
    destruct (contextAge p !! c) as [t|] eqn:Ht; [right | now left].
    intros x [= <-]. unfold too_old. cbn [snd].
    specialize (Hyoung c t Ht). lia. }
  rewrite Hnone, map_to_list_empty. reflexivity.
Qed.

(** X11.  A pool that is full hands out its first context again: when the
    array holds [maxContexts] contexts and none of them has a timestamp
    older than the maximum age, [acquireContext] returns the first
    context of the array, creates and closes nothing, and leaves every
    timestamp as it is. *)
Theorem full_pool_hands_out_first_context (p : Pool) (now : Z) (c : nat)
    (rest : list nat) :
  contexts p = c :: rest ->
  maxContexts <= length (contexts p) ->
  (forall c' t, contextAge p !! c' = Some t -> (now - t <= maxContextAgeMs)%Z) ->
  acquireContext now p = (Some c, initialize p).
Proof.
  intros Hcontexts Hfull Hyoung. unfold acquireContext.
  assert (Hinit : (if browser p then p else initialize p) = initialize p)
    by (unfold initialize; now destruct (browser p)).
  rewrite Hinit.
  assert (Hsame : contexts (initialize p) = contexts p /\
                  contextAge (initialize p) = contextAge p)
    by (unfold initialize; now destruct (browser p)).
  destruct Hsame as [Hctx Hage].
  rewrite cleanup_nothing by (rewrite Hage; exact Hyoung).
  rewrite Hctx.
  destruct (Nat.ltb_spec (length (contexts p)) maxContexts) as [Hlt | _];
    [lia |].
  now rewrite Hcontexts.
Qed.

(** The theorem at a pool that has handed out three contexts, one
    second later. *)
Lemma full_pool_hands_out_first_context_witness :
  acquireContext 1000 full_pool = (Some 0, initialize full_pool).
Proof.
  apply (full_pool_hands_out_first_context full_pool 1000 0 [1; 2]).
  - vm_compute. reflexivity.
  - vm_compute. lia.
  - intros c' t Ht.
    assert (Hage : contextAge full_pool =
                   <[2 := 20%Z]> (<[1 := 10%Z]> (<[0 := 0%Z]> ∅)))
      by (vm_compute; reflexivity).
    rewrite Hage in Ht. unfold maxContextAgeMs.
    repeat (apply lookup_insert_Some in Ht as [[_ <-] | [_ Ht]]; [lia |]).
    now rewrite lookup_empty in Ht.
Defined.

(** X12.  [restart] leaves no context behind: after it the browser runs, the
    array is empty and every context the pool ever created is closed;
    the next [acquireContext] makes a context that the pool has not
    handed out before, stamps it with the time of the call, and holds
    that context alone. *)
Theorem restart_leaves_no_context (p : Pool) (now : Z) :
  reachable p ->
  browser (restart p) = true /\
  contexts (restart p) = [] /\
  (forall c, c < next_context p -> c ∈ closed (restart p)) /\
  (acquireContext now (restart p)).1 = Some (next_context p) /\
  contexts (acquireContext now (restart p)).2 = [next_context p] /\
  (next_context p ∉ closed (acquireContext now (restart p)).2) /\
  contextAge (acquireContext now (restart p)).2 !! next_context p = Some now.
Proof.
  intros Hreach.
  destruct (reachable_inv p Hreach) as (_ & Hctx & Hclosed & _ & Hall).
  assert (Hrestart : restart p =
            {| browser := true; contexts := []; contextAge := ∅;
               next_context := next_context p; created := created p;
               closed := closed p ∪ list_to_set (contexts p) |})
    by reflexivity.
  assert (Hacquire : acquireContext now (restart p) =
            (Some (next_context p),
             {| browser := true; contexts := [next_context p];
                contextAge := <[next_context p := now]> ∅;
                next_context := Datatypes.S (next_context p);
                created := <[next_context p := now]> (created p);
                closed := closed p ∪ list_to_set (contexts p) |})).
  { rewrite Hrestart. unfold acquireContext. cbn [browser].
    rewrite cleanup_nothing
      by (intros c t; cbn [contextAge]; now rewrite lookup_empty).
    reflexivity. }
  rewrite Hacquire. rewrite Hrestart.
  cbn [fst snd browser contexts closed contextAge].
  split_and!; try reflexivity.
  - intros c Hc. apply elem_of_union.
    destruct (Hall c Hc) as [Hin | Hin]; [right | now left].
    now apply elem_of_list_to_set.
  - intros [Hin | Hin%elem_of_list_to_set]%elem_of_union.
    + apply Hclosed in Hin. lia.
    + apply Hctx in Hin as (_ & Hlt & _). lia.
  - apply lookup_insert_eq.
Qed.

(** The theorem at a pool that has handed out three contexts. *)
Lemma restart_leaves_no_context_witness :
  browser (restart full_pool) = true /\
  contexts (restart full_pool) = [] /\
  (forall c, c < next_context full_pool -> c ∈ closed (restart full_pool)) /\
  (acquireContext 1000 (restart full_pool)).1 = Some (next_context full_pool) /\
  contexts (acquireContext 1000 (restart full_pool)).2 =
    [next_context full_pool] /\
  (next_context full_pool ∉ closed (acquireContext 1000 (restart full_pool)).2) /\
  contextAge (acquireContext 1000 (restart full_pool)).2
    !! next_context full_pool = Some 1000%Z.
Proof.
  apply (restart_leaves_no_context full_pool 1000).
  unfold full_pool. repeat apply reach_acquire. apply reach_new.
Defined.

End PoolReuse.

(* ================================================================== *)
(** * Further properties of the parsers *)
(* ================================================================== *)

Section ExtractFacts.

Import Validators.

Local Arguments String.append !s1 s2 : simpl nomatch.

Lemma org_groups_at_parts (s : string) (group1 group2 : string) :
  org_groups_at s = Some (group1, group2) -> key_parts group1 group2.
Proof.
  unfold org_groups_at. rewrite rests_rep_digit.
  destruct (re_digits 6 s) as [after|] eqn:H6; [|discriminate].
  apply re_digits_Some in H6 as (a & -> & Ha & Hda).
  destruct (flat_map _ (rests (Opt (Lit "-")) after)) as [|g rest] eqn:Hflat;
    [discriminate |].
  rewrite slice_to_append by assumption. intros [= <- <-].
  assert (Hg : g ∈ g :: rest) by left.
  rewrite <- Hflat in Hg. apply list_elem_of_In, in_flat_map in Hg.
  destruct Hg as (h & _ & Hg). rewrite rests_rep_digit in Hg.
  destruct (re_digits 4 h) as [r|] eqn:H4; [|now destruct Hg].
  apply re_digits_Some in H4 as (b & -> & Hb & Hdb).
  destruct Hg as [<- | []]. rewrite slice_to_append by assumption.
  repeat split; assumption.
Qed.

Lemma org_match_parts (text : string) (group1 group2 : string) :
  org_match text = Some (group1, group2) -> key_parts group1 group2.
Proof.
  induction text as [|c text IH]; [discriminate |].
  change (org_match (String c text))
    with (match org_groups_at (String c text) with
          | Some groups => Some groups
          | None => org_match text
          end).
  destruct (org_groups_at (String c text)) as [groups|] eqn:Hat; [|exact IH].
  intros [= ->]. exact (org_groups_at_parts _ _ _ Hat).
Qed.

Lemma four_digits_rests (b : string) :
  String.length b = 4 -> all_digits b = true ->
  rests (Lit "-") b = [] /\ re_digits 4 b = Some "" /\ slice_to 4 b = b.
Proof.
  intros Hb Hdb. split_and!.
  - destruct b as [|c b]; [reflexivity |]. simpl in Hdb |- *.
    apply andb_true_iff in Hdb as [Hc _].
    destruct (Ascii.eqb_spec c "-") as [-> |]; [discriminate | reflexivity].
  - apply re_digits_Some. exists b. split_and!; try assumption.
    clear. induction b as [|c b IH]; simpl; congruence.
  - rewrite <- (slice_to_append 4 b "" Hb) at 2.
    f_equal. clear. induction b as [|c b IH]; simpl; congruence.
Qed.

Lemma org_groups_at_shape (a b : string) :
  key_parts a b ->
  org_groups_at (a +:+ b) = Some (a, b) /\
  org_groups_at (a +:+ "-" +:+ b) = Some (a, b).
Proof.
  intros (Ha & Hda & Hb & Hdb).
  destruct (four_digits_rests b Hb Hdb) as (Hlit & H4 & Hslice).
  unfold org_groups_at. rewrite !rests_rep_digit.
  assert (H6 : forall r, re_digits 6 (a +:+ r) = Some r)
    by (intros r; apply re_digits_Some; eauto).
  rewrite !H6, !slice_to_append by assumption.
  change (rests (Opt (Lit "-")) b) with (rests (Lit "-") b ++ [b]).
  rewrite Hlit. cbn [app flat_map]. rewrite rests_rep_digit, H4.
  split; [now rewrite Hslice |].
  change (rests (Opt (Lit "-")) ("-" +:+ b)) with [b; "-" +:+ b].
  cbn [flat_map]. rewrite rests_rep_digit, H4. cbn [app]. now rewrite Hslice.
Qed.

Lemma org_match_head (text : string) (groups : string * string) :
  org_groups_at text = Some groups -> org_match text = Some groups.
Proof.
  intros H. destruct text as [|c text]; [discriminate |].
  change (org_match (String c text))
    with (match org_groups_at (String c text) with
          | Some groups => Some groups
          | None => org_match text
          end).
  now rewrite H.
Qed.

(** X21.  [extractOrgNumber] and the schema agree.  Whatever text it is given,
    a key that [extractOrgNumber] returns is canonical: the schema and
    [normalizeOrgNumber] accept it and leave it as it is.  And on every
    input that the schema accepts, [extractOrgNumber] returns the key
    that the schema returns.  Text that is missing and text with no
    run of ten digits (or six, a hyphen, four) give [null]. *)
Theorem extractOrgNumber_canonical (text : option string) :
  (forall key, extractOrgNumber text = Some key ->
     OrgNumberSchema key = Return key /\ normalizeOrgNumber key = Return key) /\
  (forall val key, text = Some val -> OrgNumberSchema val = Return key ->
     extractOrgNumber text = Some key) /\
  extractOrgNumber None = None /\
  extractOrgNumber (Some "") = None /\
  extractOrgNumber (Some "org.nr: 556631-3788") = Some "556631-3788" /\
  extractOrgNumber (Some "55663-13788") = None.
Proof.
  split_and!; try reflexivity.
  - intros key. unfold extractOrgNumber.
    destruct text as [t|]; [|discriminate].
    destruct (negb (truthy_str t)); [discriminate |].
    destruct (org_match t) as [[group1 group2]|] eqn:Hmatch; [|discriminate].
    intros [= <-]. apply canonical_fixed. exact (org_match_parts _ _ _ Hmatch).
  - intros val key -> (a & b & Hparts & Hval & ->)%OrgNumberSchema_Return.
    destruct (org_groups_at_shape a b Hparts) as [Hplain Hhyphen].
    assert (Hmatch : org_match val = Some (a, b))
      by (destruct Hval as [-> | ->]; now apply org_match_head).
    assert (Htruthy : truthy_str val = true).
    { destruct Hparts as (Ha & _).
      destruct Hval as [-> | ->]; destruct a; try discriminate; reflexivity. }
    unfold extractOrgNumber. now rewrite Htruthy, Hmatch.
Qed.

End ExtractFacts.
